(** * python-eigrp: the DUAL finite state machine and the EIGRP parameter TLV

    A shallow embedding of [dualfsm.py] (the DUAL state machine and its
    per-state handlers) and of the parts of [eigrp.py] that validate the
    K-values and that pack and unpack the parameter TLV, with the properties
    of the specification stated and settled on it. *)

From Stdlib Require Import ZArith List String Bool Lia.
Import ListNotations.
Open Scope string_scope.
Open Scope list_scope.
Open Scope Z_scope.

(** ** The transition table handed to Fysom *)

Module Fysom.

(** The five states named in [DUAL_EVENTS]. *)
Inductive State := Passive | Active0 | Active1 | Active2 | Active3.

(** The sixteen input events of the DUAL machine. *)
Inductive Event :=
  | IE1 | IE2 | IE3 | IE4 | IE5 | IE6 | IE7 | IE8
  | IE9 | IE10 | IE11 | IE12 | IE13 | IE14 | IE15 | IE16.

Definition State_eqb (a b : State) : bool :=
  match a, b with
  | Passive, Passive | Active0, Active0 | Active1, Active1
  | Active2, Active2 | Active3, Active3 => true
  | _, _ => false
  end.

Definition Event_eqb (a b : Event) : bool :=
  match a, b with
  | IE1, IE1 | IE2, IE2 | IE3, IE3 | IE4, IE4 | IE5, IE5 | IE6, IE6
  | IE7, IE7 | IE8, IE8 | IE9, IE9 | IE10, IE10 | IE11, IE11 | IE12, IE12
  | IE13, IE13 | IE14, IE14 | IE15, IE15 | IE16, IE16 => true
  | _, _ => false
  end.

(** One dict of the events list: [{'name': .., 'src': .., 'dst': ..}]. *)
Record transition := { name : Event; src : State; dst : State }.

(** [DualFsm.DUAL_EVENTS], entry by entry, in the order of the source. *)
Definition DUAL_EVENTS : list transition :=
  [ {| name := IE1;  src := Passive; dst := Passive |};
    {| name := IE2;  src := Passive; dst := Passive |};
    {| name := IE3;  src := Passive; dst := Active3 |};
    {| name := IE4;  src := Passive; dst := Active1 |};
    {| name := IE5;  src := Active0; dst := Active2 |};
    {| name := IE6;  src := Active0; dst := Active0 |};
    {| name := IE7;  src := Active0; dst := Active0 |};
    {| name := IE8;  src := Active0; dst := Active0 |};
    {| name := IE6;  src := Active1; dst := Active1 |};
    {| name := IE7;  src := Active1; dst := Active1 |};
    {| name := IE8;  src := Active1; dst := Active1 |};
    {| name := IE6;  src := Active2; dst := Active2 |};
    {| name := IE7;  src := Active2; dst := Active2 |};
    {| name := IE8;  src := Active2; dst := Active2 |};
    {| name := IE6;  src := Active3; dst := Active3 |};
    {| name := IE7;  src := Active3; dst := Active3 |};
    {| name := IE8;  src := Active3; dst := Active3 |};
    {| name := IE9;  src := Active1; dst := Active0 |};
    {| name := IE10; src := Active3; dst := Active2 |};
    {| name := IE11; src := Active0; dst := Active1 |};
    {| name := IE12; src := Active2; dst := Active3 |};
    {| name := IE13; src := Active3; dst := Passive |};
    {| name := IE14; src := Active0; dst := Passive |};
    {| name := IE15; src := Active1; dst := Passive |};
    {| name := IE16; src := Active2; dst := Passive |} ].

(** The ['initial'] key of the configuration given to [Fysom]. *)
Definition initial : State := Passive.

(** Fysom stores the events as [_map[name][src] = dst], filling the map in
    list order, so that a later entry for the same name and source
    overwrites an earlier one. [lookup] reads that map: the last entry of
    the list that matches. *)
Fixpoint lookup (evs : list transition) (e : Event) (s : State)
  : option State :=
  match evs with
  | [] => None
  | t :: rest =>
      match lookup rest e s with
      | Some d => Some d
      | None =>
          if Event_eqb (name t) e && State_eqb (src t) s
          then Some (dst t) else None
      end
  end.

(** Where calling event [e] in state [s] leads; [None] is Fysom's
    "event inappropriate in current state" error. *)
Definition next (e : Event) (s : State) : option State :=
  lookup DUAL_EVENTS e s.

End Fysom.
Export Fysom.

(** The canonical transition table, as the specification words it. *)
Inductive canonical : Event -> State -> State -> Prop :=
  | c_IE1  : canonical IE1 Passive Passive
  | c_IE2  : canonical IE2 Passive Passive
  | c_IE3  : canonical IE3 Passive Active3
  | c_IE4  : canonical IE4 Passive Active1
  | c_IE5  : canonical IE5 Active0 Active2
  | c_IE6  : forall s, s <> Passive -> canonical IE6 s s
  | c_IE7  : forall s, s <> Passive -> canonical IE7 s s
  | c_IE8  : forall s, s <> Passive -> canonical IE8 s s
  | c_IE9  : canonical IE9 Active1 Active0
  | c_IE10 : canonical IE10 Active3 Active2
  | c_IE11 : canonical IE11 Active0 Active1
  | c_IE12 : canonical IE12 Active2 Active3
  | c_IE13 : canonical IE13 Active3 Passive
  | c_IE14 : canonical IE14 Active0 Passive
  | c_IE15 : canonical IE15 Active1 Passive
  | c_IE16 : canonical IE16 Active2 Passive.

(** ** Data model of the topology table *)

(** Neighbors are named by a number, destinations by their exploded
    address string ([t_entry.prefix]). *)
Definition NeighborId := Z.
Definition Destination := string.
Definition NextHop := Z.

(** The composite metric vector carried by a route. *)
Record Metric := {
  bandwidth : Z; delay : Z; reliability : Z; load : Z; mtu : Z; hopcount : Z
}.

Definition Metric_eqb (a b : Metric) : bool :=
  (bandwidth a =? bandwidth b) && (delay a =? delay b)
  && (reliability a =? reliability b) && (load a =? load b)
  && (mtu a =? mtu b) && (hopcount a =? hopcount b).

(** Modelled from the spec: the reserved delay value of an unreachable
    metric, used by [Metric.reachable()], whose class is not among the
    sources. *)
Definition INFINITE_DELAY : Z := 4294967295.

(** Modelled from the spec: [Metric.reachable()], true unless the delay
    carries the reserved sentinel. *)
Definition Metric_reachable (m : Metric) : bool :=
  negb (delay m =? INFINITE_DELAY).

(** The six K-values, K1 to K6. *)
Record KValues := { k1 : Z; k2 : Z; k3 : Z; k4 : Z; k5 : Z; k6 : Z }.

(** [EIGRP.DEFAULT_K_VALUES]. *)
Definition DEFAULT_K_VALUES : KValues :=
  {| k1 := 1; k2 := 74; k3 := 1; k4 := 0; k5 := 0; k6 := 0 |}.

(** A neighbor's record for one destination ([TopologyNeighborInfo]): the
    fields the handlers read and write ([neighbor], [reported_distance],
    [waiting_for_reply]) and the two the specification adds
    ([computed_distance], [reachable]). *)
Record TopologyNeighborInfo := {
  neighbor : NeighborId;
  reported_distance : Metric;
  computed_distance : Z;
  reachable : bool;
  waiting_for_reply : list Destination
}.

(** A [DualFsm] object: [_state] is the handler object the public methods
    dispatch to, [current] the state of the embedded Fysom machine
    ([self.fsm.current]). *)
Record DualFsm := { _state : State; current : State }.

(** [DualFsm.__init__]: [self._state = self._states['passive']] and a Fysom
    machine started in its initial state. The [callbacks] dict built there
    stays local: it is not part of the configuration passed to [Fysom]. *)
Definition DualFsm_init : DualFsm :=
  {| _state := Passive; current := Fysom.initial |}.

(** The per-destination topology entry, with the K-values its accessor
    [get_kvalues] currently returns. [successor = None] is the sentinel
    [NO_SUCCESSOR]. *)
Record TopologyEntry := {
  prefix : Destination;
  neighbors : list TopologyNeighborInfo;
  successor : option NeighborId;
  feasible_distance : Z;
  fsm : DualFsm;
  kvalues : KValues
}.

Definition set_neighbors (l : list TopologyNeighborInfo) (t : TopologyEntry)
  : TopologyEntry :=
  {| prefix := prefix t; neighbors := l; successor := successor t;
     feasible_distance := feasible_distance t; fsm := fsm t;
     kvalues := kvalues t |}.

Definition set_current (s : State) (t : TopologyEntry) : TopologyEntry :=
  {| prefix := prefix t; neighbors := neighbors t; successor := successor t;
     feasible_distance := feasible_distance t;
     fsm := {| _state := _state (fsm t); current := s |};
     kvalues := kvalues t |}.

(** ** Python values and exceptions *)

(** The action codes, module constants of [dualfsm.py]. *)
Definition NO_OP : Z := 1.
Definition INSTALL_SUCCESSOR : Z := 2.
Definition UNINSTALL_SUCCESSOR : Z := 3.
Definition MODIFY_SUCCESSOR_ROUTE : Z := 4.
Definition SEND_QUERY : Z := 5.
Definition SEND_REPLY : Z := 6.

(** Every name bound at module level in [dualfsm.py]: the one import, the
    six constants, the classes and the five state objects. A name used in a
    function that is neither a parameter, a local nor in this list (nor a
    builtin) raises [NameError] when it is evaluated. *)
Definition module_names : list string :=
  [ "Fysom"; "NO_OP"; "INSTALL_SUCCESSOR"; "UNINSTALL_SUCCESSOR";
    "MODIFY_SUCCESSOR_ROUTE"; "SEND_QUERY"; "SEND_REPLY"; "DualFsm";
    "DualState"; "StatePassive"; "BaseActive"; "StateActive0";
    "StateActive1"; "StateActive2"; "StateActive3"; "_state_passive";
    "_state_active0"; "_state_active1"; "_state_active2"; "_state_active3" ].

Inductive exn :=
  | NameError (n : string)
  | KeyError (k : NeighborId)
  | AttributeError (attr : string)
  | TypeError (msg : string)
  | ValueError (msg : string)
  | StructError
  | FormatException (msg : string)
  | IndentationError (msg : string)
  | FysomError (e : Event) (s : State).

(** The items of an action list: numbers, [None], neighbors, neighbor
    records, the [NO_SUCCESSOR] sentinel and [(code, data)] tuples. *)
Inductive pyval :=
  | PyNone
  | PyInt (z : Z)
  | PyNeighbor (n : NeighborId)
  | PyInfo (i : TopologyNeighborInfo)
  | PyNoSuccessor
  | PyTuple (a b : pyval).

(** What a handler returns: [None] (also when the body ends without a
    [return]) or a list. *)
Inductive retval :=
  | RNone
  | RList (l : list pyval).

(** [t_entry.successor] as a value. *)
Definition PySuccessor (s : option NeighborId) : pyval :=
  match s with Some n => PyNeighbor n | None => PyNoSuccessor end.

(** ** Handlers run in a state-and-exception monad over the entry *)

Inductive outcome (A : Type) :=
  | Ret (a : A)
  | Raise (e : exn).
Arguments Ret {A} a.
Arguments Raise {A} e.

(** A computation returns or raises, and in both cases leaves the entry
    as mutated so far. *)
Definition M (A : Type) := TopologyEntry -> outcome A * TopologyEntry.

Definition ret {A} (a : A) : M A := fun t => (Ret a, t).
Definition raise {A} (e : exn) : M A := fun t => (Raise e, t).
Definition bind {A B} (m : M A) (k : A -> M B) : M B :=
  fun t => match m t with
           | (Ret a, t') => k a t'
           | (Raise e, t') => (Raise e, t')
           end.

Notation "x <- m ;; k" := (bind m (fun x => k))
  (at level 61, m at next level, right associativity).
Notation "m ;;; k" := (bind m (fun _ => k))
  (at level 61, right associativity).

Definition gets {A} (f : TopologyEntry -> A) : M A := fun t => (Ret (f t), t).
Definition modify (f : TopologyEntry -> TopologyEntry) : M unit :=
  fun t => (Ret tt, f t).

(** [try: m  except KeyError: h]. *)
Definition try_except_KeyError {A} (m h : M A) : M A :=
  fun t => match m t with
           | (Raise (KeyError _), t') => h t'
           | r => r
           end.

(** Evaluating a name with no binding. *)
Definition unbound_name {A} (n : string) : M A := raise (NameError n).

(** [for x in l: body]. *)
Fixpoint for_each {A} (l : list A) (body : A -> M unit) : M unit :=
  match l with
  | [] => ret tt
  | x :: rest => body x ;;; for_each rest body
  end.

(** Calling a Fysom event: [t_entry.fsm.fsm.IEn()]. *)
Definition fire (e : Event) : M unit :=
  fun t => match Fysom.next e (current (fsm t)) with
           | Some d => (Ret tt, set_current d t)
           | None => (Raise (FysomError e (current (fsm t))), t)
           end.

(** ** The topology entry's own operations *)

Definition find_neighbor (n : NeighborId) (l : list TopologyNeighborInfo)
  : option TopologyNeighborInfo :=
  find (fun i => Z.eqb (neighbor i) n) l.

(** Writes [f] through to the record of neighbor [n]: the record is one
    object, shared by the table and by whoever holds it. *)
Definition update_record (n : NeighborId)
    (f : TopologyNeighborInfo -> TopologyNeighborInfo)
    (l : list TopologyNeighborInfo) : list TopologyNeighborInfo :=
  map (fun i => if Z.eqb (neighbor i) n then f i else i) l.

Definition set_reported_distance (m : Metric) (i : TopologyNeighborInfo)
  : TopologyNeighborInfo :=
  {| neighbor := neighbor i; reported_distance := m;
     computed_distance := computed_distance i; reachable := reachable i;
     waiting_for_reply := waiting_for_reply i |}.

Definition set_waiting_for_reply (w : list Destination)
    (i : TopologyNeighborInfo) : TopologyNeighborInfo :=
  {| neighbor := neighbor i; reported_distance := reported_distance i;
     computed_distance := computed_distance i; reachable := reachable i;
     waiting_for_reply := w |}.

(** [list.remove(x)]: drops the first occurrence, [None] (a [ValueError])
    when there is none. *)
Fixpoint list_remove (x : Destination) (l : list Destination)
  : option (list Destination) :=
  match l with
  | [] => None
  | y :: rest =>
      if String.eqb y x then Some rest
      else match list_remove x rest with
           | Some r => Some (y :: r)
           | None => None
           end
  end.

Definition mem (x : Destination) (l : list Destination) : bool :=
  existsb (String.eqb x) l.

(** Modelled from the spec: the reply-wait set of an entry, absent from the
    sources as a field; the handlers keep it as the flag [prefix] in the
    [waiting_for_reply] list of each neighbor still owing a reply. *)
Definition reply_wait_set (t : TopologyEntry) : list NeighborId :=
  map neighbor
      (filter (fun i => mem (prefix t) (waiting_for_reply i)) (neighbors t)).

(** The better of two candidates: the smaller computed distance, the
    smaller neighbor id on a tie. *)
Definition better (a b : TopologyNeighborInfo) : TopologyNeighborInfo :=
  if computed_distance b <? computed_distance a then b
  else if (computed_distance b =? computed_distance a)
          && Z.ltb (neighbor b) (neighbor a) then b
  else a.

Fixpoint minimum (l : list TopologyNeighborInfo)
  : option TopologyNeighborInfo :=
  match l with
  | [] => None
  | i :: rest =>
      match minimum rest with
      | Some j => Some (better i j)
      | None => Some i
      end
  end.

Definition is_successor (t : TopologyEntry) (i : TopologyNeighborInfo)
  : bool :=
  match successor t with
  | Some s => Z.eqb s (neighbor i)
  | None => false
  end.

Section Dual.

(** [Metric.compute_metric(k1, .., k6)], the weighted scalar distance; its
    class is not among the sources and nothing below depends on the
    formula. *)
Variable compute_metric : Metric -> KValues -> Z.

(** The Feasibility Condition of neighbor record [i] in entry [t]. *)
Definition feasible (t : TopologyEntry) (i : TopologyNeighborInfo) : bool :=
  compute_metric (reported_distance i) (kvalues t) <? feasible_distance t.

(** Modelled from the spec: [TopologyEntry.get_feasible_successor()], absent
    from the sources: the reachable non-successor neighbor with minimum
    computed distance among those satisfying the Feasibility Condition, or
    none. *)
Definition feasible_successor_of (t : TopologyEntry)
  : option TopologyNeighborInfo :=
  minimum (filter (fun i => reachable i && negb (is_successor t i)
                            && feasible t i) (neighbors t)).

Definition get_feasible_successor : M (option TopologyNeighborInfo) :=
  gets feasible_successor_of.

(** Modelled from the spec: [TopologyEntry.get_neighbor(neighbor)], absent
    from the sources; it raises [KeyError] for a neighbor with no record,
    which is what [StatePassive.handle_update] catches. *)
Definition get_neighbor (n : NeighborId) : M TopologyNeighborInfo :=
  fun t => match find_neighbor n (neighbors t) with
           | Some i => (Ret i, t)
           | None => (Raise (KeyError n), t)
           end.

(** Modelled from the spec: [TopologyEntry.add_neighbor(info)], absent from
    the sources. *)
Definition add_neighbor (i : TopologyNeighborInfo) : M unit :=
  modify (fun t => set_neighbors (neighbors t ++ [i]) t).

(** Modelled from the spec: [TopologyEntry.update_neighbor(entry, metric)],
    absent from the sources: stores the metric and recomputes the computed
    distance with the current K-values. *)
Definition update_neighbor (i : TopologyNeighborInfo) (m : Metric) : M unit :=
  modify (fun t =>
    set_neighbors
      (update_record (neighbor i)
         (fun r => {| neighbor := neighbor r; reported_distance := m;
                      computed_distance := compute_metric m (kvalues t);
                      reachable := Metric_reachable m;
                      waiting_for_reply := waiting_for_reply r |})
         (neighbors t)) t).

(** Modelled from the spec: [TopologyNeighborInfo.update_full_distance()],
    absent from the sources: recomputes the computed distance of the
    record from its reported distance. *)
Definition update_full_distance (n : NeighborId) : M unit :=
  modify (fun t =>
    set_neighbors
      (update_record n
         (fun r => {| neighbor := neighbor r;
                      reported_distance := reported_distance r;
                      computed_distance :=
                        compute_metric (reported_distance r) (kvalues t);
                      reachable := reachable r;
                      waiting_for_reply := waiting_for_reply r |})
         (neighbors t)) t).

(** Modelled from the spec: [TopologyEntry.all_replies_received()], absent
    from the sources: true iff the reply-wait set is empty. *)
Definition all_replies_received : M bool :=
  gets (fun t => match reply_wait_set t with [] => true | _ => false end).

(** [get_kvalues()]. *)
Definition get_kvalues : M KValues := gets kvalues.

(** [n_entry.waiting_for_reply.append(p)]. *)
Definition append_waiting (n : NeighborId) (p : Destination) : M unit :=
  modify (fun t =>
    set_neighbors
      (update_record n
         (fun r => set_waiting_for_reply (waiting_for_reply r ++ [p]) r)
         (neighbors t)) t).

(** [neighbor.waiting_for_reply.remove(t_entry.prefix)]. The neighbor
    object is the record of the table; [list.remove] raises [ValueError]
    when the flag is not in the list, and a neighbor outside the table
    holds no flag of this entry. *)
Definition remove_waiting (n : NeighborId) : M unit :=
  fun t =>
    match find_neighbor n (neighbors t) with
    | Some i =>
        match list_remove (prefix t) (waiting_for_reply i) with
        | Some w =>
            (Ret tt,
             set_neighbors
               (update_record n (set_waiting_for_reply w) (neighbors t)) t)
        | None => (Raise (ValueError "list.remove(x): x not in list"), t)
        end
    | None => (Raise (ValueError "list.remove(x): x not in list"), t)
    end.

(** The current contents of a neighbor object: its record in the table. *)
Definition deref (i : TopologyNeighborInfo) : M TopologyNeighborInfo :=
  gets (fun t => match find_neighbor (neighbor i) (neighbors t) with
                 | Some r => r
                 | None => i
                 end).

(** [list((NO_OP, None))]: the list of the tuple's two items. *)
Definition list_NO_OP : retval := RList [PyInt NO_OP; PyNone].

(** ** [StatePassive] *)

Definition StatePassive_handle_update
    (nb : NeighborId) (nexthop : NextHop) (metric : Metric) : M retval :=
  neighbor_entry <-
    try_except_KeyError
      (get_neighbor nb)
      (new_info <- (unbound_name "eigrp"
                    : M (NeighborId -> Metric -> TopologyNeighborInfo)) ;;
       tlv_metric <- unbound_name "tlv" ;;
       add_neighbor (new_info nb tlv_metric) ;;;
       get_neighbor nb) ;;
  tlv_metric <- unbound_name "tlv" ;;
  update_neighbor neighbor_entry tlv_metric ;;;
  successor_entry <- gets successor ;;
  match successor_entry with
  | Some s =>
      if Z.eqb s (neighbor neighbor_entry) then
        kv <- get_kvalues ;;
        succ <- deref neighbor_entry ;;
        if compute_metric (reported_distance succ) kv
           =? compute_metric metric kv
        then ret list_NO_OP
        else if negb (Metric_reachable metric) then
          fs <- get_feasible_successor ;;
          match fs with
          | Some f => ret (RList [PyInt INSTALL_SUCCESSOR;
                                  PyNeighbor (neighbor f)])
          | None =>
              fire IE4 ;;;
              tlv <- (unbound_name "tlv" : M pyval) ;;
              let actions := [PyTuple (PyInt SEND_QUERY) tlv] in
              let actions :=
                actions ++ [PyTuple (PyInt UNINSTALL_SUCCESSOR) PyNone] in
              ns <- gets neighbors ;;
              for_each ns (fun n_entry =>
                exploded <- unbound_name "tlv" ;;
                append_waiting (neighbor n_entry) exploded) ;;;
              (* no return here: control reaches the last line *)
              ret list_NO_OP
          end
        else
          tlv_metric <- unbound_name "tlv" ;;
          modify (fun t =>
            set_neighbors
              (update_record s (set_reported_distance tlv_metric)
                 (neighbors t)) t) ;;;
          update_full_distance s ;;;
          SET_METRIC <- unbound_name "SET_METRIC" ;;
          tlv <- (unbound_name "tlv" : M pyval) ;;
          let actions := [PyTuple (PyInt SET_METRIC) tlv] in
          SEND_UPDATE <- unbound_name "SEND_UPDATE" ;;
          tlv <- (unbound_name "tlv" : M pyval) ;;
          let actions := actions ++ [PyTuple (PyInt SEND_UPDATE) tlv] in
          ret (RList actions)
      else ret list_NO_OP
  | None =>
      if negb (Metric_reachable metric) then ret list_NO_OP
      else ret (RList [PyInt INSTALL_SUCCESSOR; PyNeighbor nb])
  end.

Definition StatePassive_handle_reply
    (nb : NeighborId) (nexthop : NextHop) : M retval :=
  ret list_NO_OP.

Definition StatePassive_handle_query
    (nb : NeighborId) (nexthop : NextHop) (metric : Metric) : M retval :=
  successor_entry <- gets successor ;;
  if match successor_entry with
     | Some s => Z.eqb s nb
     | None => false
     end
  then
    fs <- get_feasible_successor ;;
    match fs with
    | Some f => ret (RList [PyInt SEND_REPLY; PyInfo f])
    | None =>
        fire IE3 ;;;
        tlv <- (unbound_name "tlv" : M pyval) ;;
        let actions := [PyTuple (PyInt SEND_QUERY) tlv] in
        let actions :=
          actions ++ [PyTuple (PyInt UNINSTALL_SUCCESSOR) PyNone] in
        ns <- gets neighbors ;;
        for_each ns (fun n_entry =>
          exploded <- unbound_name "tlv" ;;
          append_waiting (neighbor n_entry) exploded) ;;;
        (* the body ends here, without a return *)
        ret RNone
    end
  else
    fire IE1 ;;;
    succ <- (unbound_name "successor" : M pyval) ;;
    ret (RList [PyInt SEND_REPLY; succ]).

Definition StatePassive_handle_link_down (linkmsg : NeighborId) : M retval :=
  ret RNone.

Definition StatePassive_handle_link_metric_change (linkmsg : NeighborId)
  : M retval :=
  ret RNone.

(** ** [BaseActive] and its four subclasses *)

(** [StateActive0._received_last_reply] is not valid Python: its [else:]
    (line 392) holds only comments, and Python refuses a suite without a
    statement ([IndentationError: expected an indented block]). The
    method has no behaviour to embed: a call stands for that error, before
    anything is done, and nothing below says what the method does. *)
Definition StateActive0_received_last_reply
    (nb : NeighborId) (nexthop : NextHop) : M retval :=
  raise (IndentationError "expected an indented block").

(** [StateActive1._received_last_reply]: comments and [pass]. *)
Definition StateActive1_received_last_reply
    (nb : NeighborId) (nexthop : NextHop) : M retval :=
  ret RNone.

(** [StateActive2._received_last_reply]: comments and [pass]. *)
Definition StateActive2_received_last_reply
    (nb : NeighborId) (nexthop : NextHop) : M retval :=
  ret RNone.

Definition StateActive3_received_last_reply
    (nb : NeighborId) (nexthop : NextHop) : M retval :=
  fire IE13 ;;;
  fs <- get_feasible_successor ;;
  let actions :=
    match fs with
    | Some f => [PyTuple (PyInt INSTALL_SUCCESSOR) (PyNeighbor (neighbor f))]
    | None => []
    end in
  old <- gets successor ;;
  ret (RList (actions ++ [PyTuple (PyInt SEND_REPLY) (PySuccessor old)])).

(** [self._received_last_reply], resolved on the class of [self]. *)
Definition received_last_reply (self : State)
    (nb : NeighborId) (nexthop : NextHop) : M retval :=
  match self with
  | Active0 => StateActive0_received_last_reply nb nexthop
  | Active1 => StateActive1_received_last_reply nb nexthop
  | Active2 => StateActive2_received_last_reply nb nexthop
  | Active3 => StateActive3_received_last_reply nb nexthop
  | Passive => raise (AttributeError "_received_last_reply")
  end.

(** [self._handle_query_from_successor(neighbor, nexthop, metric, t_entry,
    get_kvalues)]: each subclass defines the method with those five
    parameters and no [self], so the bound call passes one argument too
    many. *)
Definition handle_query_from_successor (self : State)
    (nb : NeighborId) (nexthop : NextHop) (metric : Metric) : M retval :=
  raise (TypeError
    "_handle_query_from_successor() takes exactly 5 arguments (6 given)").

Definition BaseActive_handle_update (self : State)
    (nb : NeighborId) (nexthop : NextHop) (metric : Metric) : M retval :=
  i <- get_neighbor nb ;;
  (if negb (Metric_eqb (reported_distance i) metric) then
     fire IE7 ;;;
     i' <- get_neighbor nb ;;
     modify (fun t =>
       set_neighbors
         (update_record (neighbor i') (set_reported_distance metric)
            (neighbors t)) t)
   else ret tt) ;;;
  ret list_NO_OP.

Definition BaseActive_handle_reply (self : State)
    (nb : NeighborId) (nexthop : NextHop) : M retval :=
  fire IE8 ;;;
  remove_waiting nb ;;;
  done <- all_replies_received ;;
  if done then received_last_reply self nb nexthop
  else
    code <- raise (AttributeError "NO_OP") ;;
    ret (RList [PyInt code; PyNone]).

Definition BaseActive_handle_query (self : State)
    (nb : NeighborId) (nexthop : NextHop) (metric : Metric) : M retval :=
  s <- gets successor ;;
  if match s with Some s' => Z.eqb nb s' | None => false end
  then handle_query_from_successor self nb nexthop metric
  else
    fire IE6 ;;;
    succ <- (unbound_name "successor" : M pyval) ;;
    ret (RList [PyInt SEND_REPLY; succ]).

(** [handle_link_down] of the four subclasses and [handle_link_metric_change]
    of [BaseActive] and [StateActive0]: comments and [pass]. *)
Definition StateActive_handle_link_down (self : State) (linkmsg : NeighborId)
  : M retval :=
  ret RNone.

Definition BaseActive_handle_link_metric_change (self : State)
    (linkmsg : NeighborId) : M retval :=
  ret RNone.

(** ** Method resolution on the state object *)

Definition state_handle_update (self : State) :=
  match self with
  | Passive => StatePassive_handle_update
  | _ => BaseActive_handle_update self
  end.

Definition state_handle_reply (self : State) :=
  match self with
  | Passive => StatePassive_handle_reply
  | _ => BaseActive_handle_reply self
  end.

Definition state_handle_query (self : State) :=
  match self with
  | Passive => StatePassive_handle_query
  | _ => BaseActive_handle_query self
  end.

Definition state_handle_link_down (self : State) :=
  match self with
  | Passive => StatePassive_handle_link_down
  | _ => StateActive_handle_link_down self
  end.

Definition state_handle_link_metric_change (self : State) :=
  match self with
  | Passive => StatePassive_handle_link_metric_change
  | _ => BaseActive_handle_link_metric_change self
  end.

(** ** The public methods of [DualFsm] *)

(** [return self._state.handle_update(...)]. *)
Definition DualFsm_handle_update
    (nb : NeighborId) (nexthop : NextHop) (metric : Metric) : M retval :=
  self <- gets (fun t => _state (fsm t)) ;;
  state_handle_update self nb nexthop metric.

(** [self._state.handle_reply(...)], with no [return]. *)
Definition DualFsm_handle_reply
    (nb : NeighborId) (nexthop : NextHop) : M retval :=
  self <- gets (fun t => _state (fsm t)) ;;
  state_handle_reply self nb nexthop ;;;
  ret RNone.

(** [self._state.handle_query(...)], with no [return]. *)
Definition DualFsm_handle_query
    (nb : NeighborId) (nexthop : NextHop) (metric : Metric) : M retval :=
  self <- gets (fun t => _state (fsm t)) ;;
  state_handle_query self nb nexthop metric ;;;
  ret RNone.

Definition DualFsm_handle_link_down (linkmsg : NeighborId) : M retval :=
  self <- gets (fun t => _state (fsm t)) ;;
  state_handle_link_down self linkmsg ;;;
  ret RNone.

Definition DualFsm_handle_link_metric_change (linkmsg : NeighborId)
  : M retval :=
  self <- gets (fun t => _state (fsm t)) ;;
  state_handle_link_metric_change self linkmsg ;;;
  ret RNone.

End Dual.

(** ** [eigrp.py]: the checks of [EIGRP.__init__] *)

(** Sequencing of code that returns or raises and touches no entry. *)
Definition and_then {A B} (m : outcome A) (k : A -> outcome B) : outcome B :=
  match m with
  | Ret a => k a
  | Raise e => Raise e
  end.

Notation "x <~ m ;; k" := (and_then m (fun x => k))
  (at level 61, m at next level, right associativity).

(** What a caller can pass as [kvalues]: [None] (the default), a number, or
    a list of numbers. *)
Inductive kvalues_arg :=
  | KNone
  | KNumber (z : Z)
  | KList (l : list Z).

(** [not kvalues]. *)
Definition falsy (kv : kvalues_arg) : bool :=
  match kv with
  | KNone => true
  | KNumber z => z =? 0
  | KList l => match l with [] => true | _ => false end
  end.

(** [len(kvalues)]. *)
Definition len (kv : kvalues_arg) : outcome Z :=
  match kv with
  | KList l => Ret (Z.of_nat (List.length l))
  | KNone => Raise (TypeError "object of type 'NoneType' has no len()")
  | KNumber _ => Raise (TypeError "object of type 'int' has no len()")
  end.

(** The loop [for k in kvalues: if not (0 <= k <= 255): raise ValueError]. *)
Fixpoint check_each (l : list Z) : outcome unit :=
  match l with
  | [] => Ret tt
  | k :: rest =>
      if negb ((0 <=? k) && (k <=? 255))
      then Raise (ValueError "Each kvalue must be between 0 and 255.")
      else check_each rest
  end.

(** Lines 90 to 101 of [EIGRP.__init__]. The test [if not sum(kvalues)] of
    the source stands inside the [except TypeError] handler, after its
    [raise], and is never run. *)
Definition check_kvalues (kv : kvalues_arg) : outcome kvalues_arg :=
  if falsy kv then Raise (ValueError "Exactly 6 K-values must be present.")
  else
    n <~ len kv ;;
    if negb (n =? 6)
    then Raise (ValueError "Exactly 6 K-values must be present.")
    else
      _ <~ match kv with
           | KList l => check_each l
           | _ => Raise (TypeError "kvalues must be an iterable.")
           end ;;
      Ret kv.

Definition DEFAULT_HT_MULTIPLIER : Z := 3.

(** What [EIGRP.__init__] has stored when its argument checks are over
    ([_instance_holdtime] is the attribute [_holdtime] of the instance). *)
Record EIGRP := {
  _rid : Z; _asn : Z; _hello_interval : Z; _instance_holdtime : Z;
  _kvalues : kvalues_arg
}.

(** [EIGRP.__init__] up to the choice of the header class: the checks of
    [rid], [asn], [hello_interval], [kvalues] and [hdrver], in that order.
    What follows in the source (logging, the interfaces of the host, the
    reactor) does not look at the K-values again. *)
Definition EIGRP_init (rid asn : Z) (kv : kvalues_arg)
    (hello_interval hdrver : Z) : outcome EIGRP :=
  if negb ((0 <=? rid) && (rid <? 65536))
  then Raise (ValueError
                "Router ID must be a positive number less than 65536.")
  else if negb ((0 <=? asn) && (asn <? 65536))
  then Raise (ValueError
                "AS Number must be a positive number less than 65536.")
  else
    let max_hello_interval := 65535 / DEFAULT_HT_MULTIPLIER in
    if negb ((1 <=? hello_interval) && (hello_interval <=? max_hello_interval))
    then Raise (ValueError "hello_interval must be between 1 and %d")
    else
      kv' <~ check_kvalues kv ;;
      if hdrver =? 2
      then Ret {| _rid := rid; _asn := asn;
                  _hello_interval := hello_interval;
                  _instance_holdtime :=
                    hello_interval * DEFAULT_HT_MULTIPLIER;
                  _kvalues := kv' |}
      else Raise (ValueError "Unsupported header version: %d").

(** ** [eigrp.py]: the parameter TLV *)

(** [sys.byteorder] of the host, which [struct] follows for a format
    string with no byte-order prefix. *)
Inductive byteorder := little | big.

(** A byte string, as the list of its byte values. *)
Definition bytes := list Z.

(** [struct.pack] of one ['B'] and of one big-endian ['H']. *)
Definition pack_B (v : Z) : outcome bytes :=
  if (0 <=? v) && (v <=? 255) then Ret [v] else Raise StructError.

Definition pack_H_be (v : Z) : outcome bytes :=
  if (0 <=? v) && (v <=? 65535)
  then Ret [Z.shiftr v 8; Z.land v 255]
  else Raise StructError.

Fixpoint pack_Bs (l : list Z) : outcome bytes :=
  match l with
  | [] => Ret []
  | v :: rest =>
      b <~ pack_B v ;;
      r <~ pack_Bs rest ;;
      Ret (b ++ r)
  end.

(** [EIGRPField.BASE_FORMAT = ">BBH"] and its size. *)
Definition BASE_FORMATLEN : Z := 4.

(** [EIGRPFieldParam.FORMAT = "BBBBBBH"] and its native size: six bytes and
    a two-byte field that needs no padding at offset 6. *)
Definition FORMATLEN : Z := 8.

Definition PROTO_GENERIC : Z := 0.
Definition TYPE : Z := 1.

(** An [EIGRPFieldParam] object. [_type] and [_len] are set only by the
    branch of [__init__] that builds the field from values. *)
Record EIGRPFieldParam := {
  _proto : Z; _type : option Z; _len : option Z;
  _k1 : Z; _k2 : Z; _k3 : Z; _k4 : Z; _k5 : Z; _k6 : Z;
  _holdtime : Z
}.

(** [struct.unpack("BBBBBBH", raw)]: native size and byte order. *)
Definition unpack (host : byteorder) (raw : bytes)
  : outcome (Z * Z * Z * Z * Z * Z * Z) :=
  match raw with
  | [b0; b1; b2; b3; b4; b5; b6; b7] =>
      let h := match host with
               | little => Z.lor b6 (Z.shiftl b7 8)
               | big => Z.lor (Z.shiftl b6 8) b7
               end in
      Ret (b0, b1, b2, b3, b4, b5, h)
  | _ => Raise StructError
  end.

(** [EIGRPFieldParam(k1=.., .., k6=.., holdtime=..)]: every K-value given
    and a holdtime that is true (non-zero). *)
Definition EIGRPFieldParam_of_values (a1 a2 a3 a4 a5 a6 holdtime : Z)
  : outcome EIGRPFieldParam :=
  if negb (holdtime =? 0) then
    Ret {| _proto := PROTO_GENERIC; _type := Some TYPE;
           _len := Some (FORMATLEN + BASE_FORMATLEN);
           _k1 := a1; _k2 := a2; _k3 := a3; _k4 := a4; _k5 := a5; _k6 := a6;
           _holdtime := holdtime |}
  else Raise (ValueError
         "Either raw or all other values are required, not both.").

(** [EIGRPFieldParam(raw=raw)]: a non-empty [raw] is unpacked. *)
Definition EIGRPFieldParam_of_raw (host : byteorder) (raw : bytes)
  : outcome EIGRPFieldParam :=
  match raw with
  | [] => Raise (ValueError
            "Either raw or all other values are required, not both.")
  | _ =>
      f <~ unpack host raw ;;
      let '(a1, a2, a3, a4, a5, a6, h) := f in
      Ret {| _proto := PROTO_GENERIC; _type := None; _len := None;
             _k1 := a1; _k2 := a2; _k3 := a3; _k4 := a4; _k5 := a5;
             _k6 := a6; _holdtime := h |}
  end.

(** [EIGRPFieldParam.pack]: [struct.pack(">BBH" + "BBBBBBH", ...)], all of
    it in network byte order, with no padding. *)
Definition pack (f : EIGRPFieldParam) : outcome bytes :=
  match _type f, _len f with
  | Some ty, Some ln =>
      hd <~ pack_Bs [_proto f; ty] ;;
      l <~ pack_H_be ln ;;
      ks <~ pack_Bs [_k1 f; _k2 f; _k3 f; _k4 f; _k5 f; _k6 f] ;;
      h <~ pack_H_be (_holdtime f) ;;
      Ret (hd ++ l ++ ks ++ h)
  | None, _ => Raise (AttributeError "_type")
  | _, None => Raise (AttributeError "_len")
  end.

(** [EIGRPFieldFactory.build]: the base header is read from the first four
    bytes and the rest goes to the class of the type found. Only the
    parameter class exists in the module; the other class names are
    unbound. *)
Definition build (host : byteorder) (raw : bytes) : outcome EIGRPFieldParam :=
  match firstn 4 raw with
  | [proto; ty; l1; l0] =>
      if ty =? TYPE then
        match EIGRPFieldParam_of_raw host (skipn 4 raw) with
        | Raise StructError =>
            Raise (FormatException "Unpacking failed (malformed TLV?).")
        | r => r
        end
      else Raise (NameError "EIGRPFieldAuth")
  | _ => Raise (FormatException "Unpacking failed (malformed TLV?).")
  end.

(** Packing a field and parsing the bytes back, on a given host. *)
Definition pack_then_build (host : byteorder) (f : EIGRPFieldParam)
  : outcome EIGRPFieldParam :=
  raw <~ pack f ;;
  build host raw.

(** ** Concrete entries: the scenarios of the specification *)

(** Modelled from the spec: the scalar distance of a metric, whose class is
    not among the sources: a bandwidth term scaled by K1 and K2/load, plus
    a delay term scaled by K3, the whole scaled by K5/(reliability+K4) when
    K5 is not zero. *)
Definition classic_metric (m : Metric) (k : KValues) : Z :=
  let base := k1 k * bandwidth m
              + (k2 k * bandwidth m) / (256 - load m)
              + k3 k * delay m in
  if k5 k =? 0 then base
  else base * k5 k / (reliability m + k4 k).

(** A metric whose scalar distance under the default K-values is [d]. *)
Definition metric_of (d : Z) : Metric :=
  {| bandwidth := 0; delay := d; reliability := 255; load := 0;
     mtu := 1500; hopcount := 1 |}.

Definition unreachable_metric : Metric := metric_of INFINITE_DELAY.

Definition dest_D : Destination := "10.0.0.0/8".

(** The record of neighbor [n] at distance [d], with the reply flags [w]. *)
Definition record_of (n : NeighborId) (d : Z) (w : list Destination)
  : TopologyNeighborInfo :=
  {| neighbor := n; reported_distance := metric_of d;
     computed_distance := d; reachable := true; waiting_for_reply := w |}.

(** An entry for [dest_D] whose handler object and Fysom machine are both
    in state [s]. *)
Definition entry_of (ns : list TopologyNeighborInfo)
    (succ : option NeighborId) (fd : Z) (s : State) : TopologyEntry :=
  {| prefix := dest_D; neighbors := ns; successor := succ;
     feasible_distance := fd; fsm := {| _state := s; current := s |};
     kvalues := DEFAULT_K_VALUES |}.

(** Scenario A: one neighbor N1 at distance 10, no successor yet. *)
Definition scenario_A : TopologyEntry :=
  entry_of [record_of 1 10 []] None 10 Passive.

(** Scenario B: successor N1 (10), N2 (50), feasible distance 10. *)
Definition scenario_B : TopologyEntry :=
  entry_of [record_of 1 10 []; record_of 2 50 []] (Some 1) 10 Passive.

(** Scenario C: successor N1 (10), N2 (5), feasible distance 10. *)
Definition scenario_C : TopologyEntry :=
  entry_of [record_of 1 10 []; record_of 2 5 []] (Some 1) 10 Passive.

(** The second half of scenario B: the entry is active in state [s], N2
    (50) is its sole neighbor and the only one owing a reply, and the
    feasible distance is frozen at 10. *)
Definition awaiting_N2 (s : State) : TopologyEntry :=
  entry_of [record_of 2 50 [dest_D]] None 10 s.

(** An entry with no neighbor record at all. *)
Definition no_neighbors (s : State) : TopologyEntry :=
  entry_of [] None 10 s.

(** The completion rule as the specification states it, at the entry left
    by the reply of [nb]: the feasible distance is the minimum computed
    distance over the records and its holder is the successor. *)
Definition completion_rule (compute_metric : Metric -> KValues -> Z)
    (t : TopologyEntry) (nb : NeighborId) : Prop :=
  let t' := snd (DualFsm_handle_reply compute_metric nb 0 t) in
  match minimum (neighbors t') with
  | Some m => feasible_distance t' = computed_distance m
              /\ successor t' = Some (neighbor m)
  | None => successor t' = None
  end.

(** The actions that name a new successor. *)
Definition install_of (f : option TopologyNeighborInfo) : list pyval :=
  match f with
  | Some i => [PyTuple (PyInt INSTALL_SUCCESSOR) (PyNeighbor (neighbor i))]
  | None => []
  end.

(** The parameter field of the default K-values with holdtime 15. *)
Definition default_param : outcome EIGRPFieldParam :=
  EIGRPFieldParam_of_values 1 74 1 0 0 0 15.

(** A byte value and a 16-bit value. *)
Definition is_byte (v : Z) : Prop := 0 <= v <= 255.
Definition is_u16 (v : Z) : Prop := 0 <= v <= 65535.

(** ** [eigrp.py]: the RTP header and the packet *)

(** [struct.pack] of one big-endian ['I']. *)
Definition pack_I_be (v : Z) : outcome bytes :=
  if (0 <=? v) && (v <=? 4294967295)
  then Ret [Z.shiftr v 24; Z.land (Z.shiftr v 16) 255;
            Z.land (Z.shiftr v 8) 255; Z.land v 255]
  else Raise StructError.

(** Reading back a big-endian ['H'] and ['I']. *)
Definition join_H_be (b1 b0 : Z) : Z := Z.lor (Z.shiftl b1 8) b0.

Definition join_I_be (b3 b2 b1 b0 : Z) : Z :=
  Z.lor (Z.shiftl b3 24)
        (Z.lor (Z.shiftl b2 16) (Z.lor (Z.shiftl b1 8) b0)).

(** [RTPHeader2.FORMAT = ">BBHIIIHH"] and its size. *)
Definition HEADERLEN : Z := 20.

Definition OPC_UPDATE : Z := 1.
Definition OPC_REQUEST : Z := 2.
Definition OPC_QUERY : Z := 3.
Definition OPC_REPLY : Z := 4.
Definition OPC_HELLO : Z := 5.
Definition OPC_PROBE : Z := 7.
Definition OPC_SIAQUERY : Z := 10.
Definition OPC_SIAREPLY : Z := 11.

(** The attributes of an [RTPHeader2] object. [VER] is the class constant
    2 until [unpack] stores the byte it read over it. There is no
    attribute [hdrver]. *)
Record RTPHeader2 := {
  VER : Z; opcode : Z; chksum : Z; flags : Z; seq : Z; ack : Z;
  rid : Z; asn : Z
}.

Definition set_chksum (c : Z) (h : RTPHeader2) : RTPHeader2 :=
  {| VER := VER h; opcode := opcode h; chksum := c; flags := flags h;
     seq := seq h; ack := ack h; rid := rid h; asn := asn h |}.

(** [RTPHeader2.unpack]: [struct.unpack(">BBHIIIHH", raw)]. *)
Definition RTPHeader2_unpack (raw : bytes) : outcome RTPHeader2 :=
  match raw with
  | [v; o; c1; c0; f3; f2; f1; f0; s3; s2; s1; s0; a3; a2; a1; a0;
     r1; r0; n1; n0] =>
      Ret {| VER := v; opcode := o; chksum := join_H_be c1 c0;
             flags := join_I_be f3 f2 f1 f0; seq := join_I_be s3 s2 s1 s0;
             ack := join_I_be a3 a2 a1 a0; rid := join_H_be r1 r0;
             asn := join_H_be n1 n0 |}
  | _ => Raise StructError
  end.

(** [RTPHeader2.pack]. *)
Definition RTPHeader2_pack (h : RTPHeader2) : outcome bytes :=
  vo <~ pack_Bs [VER h; opcode h] ;;
  c <~ pack_H_be (chksum h) ;;
  f <~ pack_I_be (flags h) ;;
  s <~ pack_I_be (seq h) ;;
  a <~ pack_I_be (ack h) ;;
  r <~ pack_H_be (rid h) ;;
  n <~ pack_H_be (asn h) ;;
  Ret (vo ++ c ++ f ++ s ++ a ++ r ++ n).

(** [not raw], for an argument that is [None] or a byte string. *)
Definition no_raw (raw : option bytes) : bool :=
  match raw with
  | None | Some [] => true
  | Some _ => false
  end.

(** [RTPHeader2.__init__]: either [raw] alone, or the six values and no
    [raw]. *)
Definition RTPHeader2_init (raw : option bytes)
    (o f s a r n : option Z) : outcome RTPHeader2 :=
  match raw, o, f, s, a, r, n with
  | Some (b :: rest), None, None, None, None, None, None =>
      RTPHeader2_unpack (b :: rest)
  | _, Some o', Some f', Some s', Some a', Some r', Some n' =>
      if no_raw raw then
        Ret {| VER := 2; opcode := o'; chksum := 0; flags := f'; seq := s';
               ack := a'; rid := r'; asn := n' |}
      else Raise (ValueError
        "Either 'raw' is required, or all other arguments are required.")
  | _, _, _, _, _, _, _ =>
      Raise (ValueError
        "Either 'raw' is required, or all other arguments are required.")
  end.

(** The exceptions of the packet code: those of [exn] and the
    [IndexError] of a string index out of range. *)
Inductive packet_exn :=
  | Exn (e : exn)
  | IndexError.

Inductive result (A : Type) :=
  | Ok (a : A)
  | Err (e : packet_exn).
Arguments Ok {A} a.
Arguments Err {A} e.

Definition lift {A} (o : outcome A) : result A :=
  match o with
  | Ret a => Ok a
  | Raise e => Err (Exn e)
  end.

Definition result_bind {A B} (m : result A) (k : A -> result B) : result B :=
  match m with
  | Ok a => k a
  | Err e => Err e
  end.

Notation "x <== m ;; k" := (result_bind m (fun x => k))
  (at level 61, m at next level, right associativity).

(** [RTPPacket.carry_around_add]. *)
Definition carry_around_add (a b : Z) : Z :=
  let c := a + b in
  Z.land c 65535 + Z.shiftr c 16.

(** The loop of [calc_chksum]: [for i in range(0, len(data), 2)], reading
    [data[i]] and [data[i+1]] as one word, low byte first. *)
Fixpoint sum_words (data : bytes) (s : Z) : result Z :=
  match data with
  | [] => Ok s
  | b0 :: rest =>
      match rest with
      | [] => Err IndexError
      | b1 :: rest' =>
          sum_words rest' (carry_around_add s (b0 + Z.shiftl b1 8))
      end
  end.

(** [RTPPacket.calc_chksum]. *)
Definition calc_chksum (prehdr fields : bytes) : result Z :=
  s <== sum_words (prehdr ++ fields) 0 ;;
  Ok (Z.land (Z.lnot s) 65535).

(** [RTPPacket.pack]: the bytes of the packet, and the header object with
    the checksum it has been given. *)
Definition RTPPacket_pack (hdr : RTPHeader2) (fields : EIGRPFieldParam)
  : result (bytes * RTPHeader2) :=
  let hdr := set_chksum 0 hdr in
  prehdr <== lift (RTPHeader2_pack hdr) ;;
  fs <== lift (pack fields) ;;
  c <== calc_chksum prehdr fs ;;
  let hdr := set_chksum c hdr in
  h <== lift (RTPHeader2_pack hdr) ;;
  Ok (h ++ fs, hdr).

(** [self._kvalues[i]]. *)
Definition kvalue_at (kv : kvalues_arg) (i : nat) : result Z :=
  match kv with
  | KList l =>
      match nth_error l i with
      | Some k => Ok k
      | None => Err IndexError
      end
  | KNone => Err (Exn (TypeError "'NoneType' object is not subscriptable"))
  | KNumber _ => Err (Exn (TypeError "'int' object is not subscriptable"))
  end.

(** [EIGRP._build_hello_pkt]: the packet stored in [self._hello_pkt]. *)
Definition build_hello_pkt (e : EIGRP) : result bytes :=
  hdr <== lift (RTPHeader2_init None (Some OPC_HELLO) (Some 0) (Some 0)
                  (Some 0) (Some (_rid e)) (Some (_asn e))) ;;
  a1 <== kvalue_at (_kvalues e) 0 ;;
  a2 <== kvalue_at (_kvalues e) 1 ;;
  a3 <== kvalue_at (_kvalues e) 2 ;;
  a4 <== kvalue_at (_kvalues e) 3 ;;
  a5 <== kvalue_at (_kvalues e) 4 ;;
  a6 <== kvalue_at (_kvalues e) 5 ;;
  fields <== lift (EIGRPFieldParam_of_values a1 a2 a3 a4 a5 a6
                     (_instance_holdtime e)) ;;
  p <== RTPPacket_pack hdr fields ;;
  Ok (fst p).

(** ** [eigrp.py]: interfaces and received datagrams *)

(** A logical interface of the host, as [EIGRP] uses it: its address
    ([ip.ip.exploded]) and its [activated] flag. *)
Record logical_iface := { ip : string; activated : bool }.

(** [EIGRP.activate_iface]: the first interface with the requested address
    is activated. The message of the final [raise] is built from [iface],
    a name that function does not bind. *)
Fixpoint activate_iface (req_iface : string) (ifaces : list logical_iface)
  : outcome (list logical_iface) :=
  match ifaces with
  | [] => Raise (NameError "iface")
  | sys_iface :: rest =>
      if String.eqb req_iface (ip sys_iface)
      then Ret ({| ip := ip sys_iface; activated := true |} :: rest)
      else
        r <~ activate_iface req_iface rest ;;
        Ret (sys_iface :: r)
  end.

(** The loop [for iface in requested_ifaces: self.activate_iface(iface)] of
    [EIGRP.__init__]. *)
Fixpoint activate_requested (requested : list string)
    (ifaces : list logical_iface) : outcome (list logical_iface) :=
  match requested with
  | [] => Ret ifaces
  | r :: rest =>
      l <~ activate_iface r ifaces ;;
      activate_requested rest l
  end.

Definition DST_IP : string := "224.0.0.10".

(** One [transport.write]: the outgoing interface set before it, the
    payload and the destination. *)
Record sent := { out_iface : string; payload : bytes; to : string }.

(** [EIGRP._send_periodic_hello], one round: the writes it makes. *)
Definition send_periodic_hello (hello_pkt : bytes)
    (ifaces : list logical_iface) : list sent :=
  map (fun i => {| out_iface := ip i; payload := hello_pkt; to := DST_IP |})
      (filter activated ifaces).

(** The opcodes [_register_op_handlers] gives a handler to. *)
Definition op_handlers : list Z :=
  [OPC_UPDATE; OPC_REQUEST; OPC_QUERY; OPC_REPLY; OPC_HELLO; OPC_SIAQUERY;
   OPC_SIAREPLY].

(** How [datagramReceived] ends when it returns. *)
Inductive delivery :=
  | IgnoredLocal
  | DroppedMalformed
  | DroppedVersion (v : Z)
  | DroppedOpcode (o : Z)
  | Handled (o : Z).

(** [EIGRP.datagramReceived], for a datagram [data] and the sender's
    address as the transport gives it. [ipaddr.IPv4Address(addr).exploded]
    belongs to the ipaddr library and is taken as the parameter
    [IPv4Address]: the exploded form of a valid address, an exception
    (ipaddr's [AddressValueError]) for anything else. The addresses of the
    interfaces are exploded forms too. *)
Definition datagramReceived (IPv4Address : string -> outcome string)
    (ifaces : list logical_iface) (data : bytes) (addr_and_zero : string)
  : outcome delivery :=
  addr <~ IPv4Address addr_and_zero ;;
  if existsb (fun local_iface => String.eqb (ip local_iface) addr) ifaces
  then Ret IgnoredLocal
  else
    match RTPHeader2_init (Some (firstn 20 data)) None None None None None
            None with
    | Raise StructError => Ret DroppedMalformed
    | Raise e => Raise e
    | Ret hdr =>
        hdrver <~ (Raise (AttributeError "hdrver") : outcome Z) ;;
        if negb (hdrver =? 2) then Ret (DroppedVersion hdrver)
        else if existsb (Z.eqb (opcode hdr)) op_handlers
        then Ret (Handled (opcode hdr))
        else Ret (DroppedOpcode (opcode hdr))
    end.

(** ** Sequences of calls of the public methods *)

(** The five inbound events, with the arguments the public methods take. *)
Inductive api_event :=
  | UpdateEvent (nb : NeighborId) (nexthop : NextHop) (metric : Metric)
  | QueryEvent (nb : NeighborId) (nexthop : NextHop) (metric : Metric)
  | ReplyEvent (nb : NeighborId) (nexthop : NextHop)
  | LinkDownEvent (linkmsg : NeighborId)
  | LinkMetricChangeEvent (linkmsg : NeighborId).

Definition deliver (compute_metric : Metric -> KValues -> Z)
    (ev : api_event) : M retval :=
  match ev with
  | UpdateEvent nb nexthop metric =>
      DualFsm_handle_update compute_metric nb nexthop metric
  | QueryEvent nb nexthop metric =>
      DualFsm_handle_query compute_metric nb nexthop metric
  | ReplyEvent nb nexthop => DualFsm_handle_reply compute_metric nb nexthop
  | LinkDownEvent linkmsg => DualFsm_handle_link_down linkmsg
  | LinkMetricChangeEvent linkmsg =>
      DualFsm_handle_link_metric_change linkmsg
  end.

(** The entry after a sequence of events; an event whose method raises
    leaves behind what the method had changed. *)
Definition run (compute_metric : Metric -> KValues -> Z)
    (evs : list api_event) (t : TopologyEntry) : TopologyEntry :=
  fold_left (fun t ev => snd (deliver compute_metric ev t)) evs t.

(** Sum of the words of a byte string, low byte first. *)
Fixpoint words_total (data : bytes) : Z :=
  match data with
  | b0 :: b1 :: rest => b0 + Z.shiftl b1 8 + words_total rest
  | _ => 0
  end.

(** An active entry in which two neighbors, N2 (50) and N3 (20), each owe
    a reply. *)
Definition awaiting_N2_N3 (s : State) : TopologyEntry :=
  entry_of [record_of 2 50 [dest_D]; record_of 3 20 [dest_D]] None 10 s.

(** A host with two interfaces, none activated yet. *)
Definition two_ifaces : list logical_iface :=
  [ {| ip := "192.0.2.1"; activated := false |};
    {| ip := "198.51.100.1"; activated := false |} ].

(** A 32-bit value. *)
Definition is_u32 (v : Z) : Prop := 0 <= v <= 4294967295.

(** ** Notions used to state the properties *)

(** What no handler touches: the feasible distance, the successor, the
    prefix, the K-values and the handler object of the entry. *)
Definition frame (t t' : TopologyEntry) : Prop :=
  feasible_distance t' = feasible_distance t
  /\ successor t' = successor t
  /\ prefix t' = prefix t
  /\ kvalues t' = kvalues t
  /\ _state (fsm t') = _state (fsm t).

Definition preserves {A} (m : M A) : Prop :=
  forall t, frame t (snd (m t)).

(** A reply flag for [p] stands at most once in the list [w]. *)
Definition flag_once (p : Destination) (w : list Destination) : Prop :=
  forall w', list_remove p w = Some w' -> mem p w' = false.

(** A well-formed table: one record per neighbor, and at most one flag
    of the entry's prefix in each record. *)
Definition well_formed (t : TopologyEntry) : Prop :=
  NoDup (map neighbor (neighbors t))
  /\ Forall (fun i => flag_once (prefix t) (waiting_for_reply i))
            (neighbors t).

(** The entry after the replies of the neighbors [l], delivered one after
    the other to the handler object [s]; a reply that raises still leaves
    its changes in the entry. *)
Definition deliver_replies (compute_metric : Metric -> KValues -> Z)
    (s : State) (l : list NeighborId) (t : TopologyEntry) : TopologyEntry :=
  fold_left (fun t nb => snd (state_handle_reply compute_metric s nb 0 t)) l t.

(** * Properties *)

(** ** The transition table *)

Lemma next_canonical (e : Event) (s d : State) :
  Fysom.next e s = Some d -> canonical e s d.
Proof.
  destruct e, s; vm_compute; intros H; inversion H; subst;
    constructor; discriminate.
Qed.

Lemma canonical_next (e : Event) (s d : State) :
  canonical e s d -> Fysom.next e s = Some d.
Proof.
  intros H; inversion H; subst; try reflexivity;
    match goal with
    | Hs : ?x <> Passive |- _ => destruct x; [contradiction Hs | ..]
    end; reflexivity.
Qed.

(** No pair of a name and a source state occurs twice in the table, so the
    order in which Fysom fills its map does not matter. *)
Lemma DUAL_EVENTS_keys_unique :
  NoDup (map (fun t => (name t, src t)) DUAL_EVENTS).
Proof.
  unfold DUAL_EVENTS; simpl.
  repeat (constructor; [simpl; intuition discriminate |]).
  constructor.
Qed.

Lemma current_set_current (d : State) (t : TopologyEntry) :
  current (fsm (set_current d t)) = d.
Proof. reflexivity. Qed.

(** C3. The machine starts in Passive, both as the Fysom state and as the
    handler object, and calling an event in a state leads exactly where the
    canonical table says: IE1 and IE2 keep Passive, IE3 leads from Passive
    to Active3, IE4 from Passive to Active1, IE5 from Active0 to Active2,
    IE6 to IE8 loop on each active state, IE9 to IE12 move between the
    active states, IE13 to IE16 lead back to Passive; every other pair of an
    event and a state is refused, and an event called on an entry moves its
    machine to the state the table gives and nowhere else. *)
Theorem dual_transition_table :
  Fysom.initial = Passive
  /\ _state DualFsm_init = Passive
  /\ current DualFsm_init = Passive
  /\ (forall e s d, Fysom.next e s = Some d <-> canonical e s d)
  /\ (forall e s, (forall d, ~ canonical e s d) <-> Fysom.next e s = None)
  /\ (forall e t d, canonical e (current (fsm t)) d
                    <-> fire e t = (Ret tt, set_current d t)).
Proof.
  repeat split; try reflexivity.
  - apply next_canonical.
  - apply canonical_next.
  - intros H. destruct (Fysom.next e s) as [d |] eqn:E; [| reflexivity].
    exfalso. exact (H d (next_canonical e s d E)).
  - intros H d Hc. apply canonical_next in Hc. congruence.
  - intros Hc. apply canonical_next in Hc. unfold fire. now rewrite Hc.
  - unfold fire. intros H.
    destruct (Fysom.next e (current (fsm t))) as [d' |] eqn:E;
      [| discriminate].
    apply next_canonical. rewrite E. f_equal.
    injection H as H.
    rewrite <- (current_set_current d' t), H. apply current_set_current.
Qed.

(** ** The feasible successor *)

Lemma better_cases (a b : TopologyNeighborInfo) :
  better a b = a \/ better a b = b.
Proof.
  unfold better.
  destruct (computed_distance b <? computed_distance a); auto.
  destruct ((computed_distance b =? computed_distance a)
            && (neighbor b <? neighbor a)); auto.
Qed.

Lemma minimum_In (l : list TopologyNeighborInfo) (i : TopologyNeighborInfo) :
  minimum l = Some i -> In i l.
Proof.
  revert i. induction l as [| a l IH]; intros i H; simpl in H.
  - discriminate.
  - destruct (minimum l) as [j |] eqn:E.
    + injection H as <-.
      destruct (better_cases a j) as [-> | ->].
      * now left.
      * right. now apply IH.
    + injection H as <-. now left.
Qed.

Lemma better_le_l (a b : TopologyNeighborInfo) :
  computed_distance (better a b) <= computed_distance a.
Proof.
  unfold better.
  destruct (computed_distance b <? computed_distance a) eqn:E1.
  - apply Z.ltb_lt in E1. lia.
  - destruct ((computed_distance b =? computed_distance a)
              && (neighbor b <? neighbor a)) eqn:E2; [| lia].
    apply andb_true_iff in E2 as [E2 _]. apply Z.eqb_eq in E2. lia.
Qed.

Lemma better_le_r (a b : TopologyNeighborInfo) :
  computed_distance (better a b) <= computed_distance b.
Proof.
  unfold better.
  destruct (computed_distance b <? computed_distance a) eqn:E1; [lia |].
  apply Z.ltb_ge in E1.
  destruct ((computed_distance b =? computed_distance a)
            && (neighbor b <? neighbor a)); lia.
Qed.

Lemma minimum_least (l : list TopologyNeighborInfo)
    (i j : TopologyNeighborInfo) :
  minimum l = Some i -> In j l -> computed_distance i <= computed_distance j.
Proof.
  revert i. induction l as [| a l IH]; intros i H Hj; simpl in H.
  - contradiction.
  - destruct (minimum l) as [m |] eqn:E.
    + injection H as <-. destruct Hj as [<- | Hj].
      * apply better_le_l.
      * specialize (IH m eq_refl Hj). pose proof (better_le_r a m). lia.
    + injection H as <-. destruct Hj as [<- | Hj]; [lia |].
      destruct l; [contradiction | simpl in E].
      destruct (minimum l); discriminate.
Qed.

(** What [get_feasible_successor] returns is a record of the table that is
    reachable, is not the successor and passes the Feasibility Condition,
    and no other such record has a smaller computed distance. *)
Lemma feasible_successor_spec (cm : Metric -> KValues -> Z)
    (t : TopologyEntry) (i : TopologyNeighborInfo) :
  feasible_successor_of cm t = Some i ->
  In i (neighbors t)
  /\ reachable i = true
  /\ is_successor t i = false
  /\ feasible cm t i = true
  /\ (forall j, In j (neighbors t) -> reachable j = true ->
        is_successor t j = false -> feasible cm t j = true ->
        computed_distance i <= computed_distance j).
Proof.
  unfold feasible_successor_of. intros H.
  pose proof (minimum_In _ _ H) as Hin.
  apply filter_In in Hin as [Hin Hf].
  apply andb_true_iff in Hf as [Hf H3].
  apply andb_true_iff in Hf as [H1 H2].
  apply negb_true_iff in H2.
  repeat split; auto.
  intros j Hj R S F. apply (minimum_least _ _ _ H).
  apply filter_In. split; [assumption |].
  now rewrite R, S, F.
Qed.

(** C1. Feasibility Condition: in every state of a topology entry, and so
    in every state the handlers can lead to, a neighbor returned by
    [get_feasible_successor()] is a neighbor of the entry whose reported
    distance, as a scalar under the current K-values, is strictly below the
    entry's feasible distance. *)
Theorem feasibility_condition (cm : Metric -> KValues -> Z)
    (t : TopologyEntry) (i : TopologyNeighborInfo) :
  fst (get_feasible_successor cm t) = Ret (Some i) ->
  In i (neighbors t)
  /\ cm (reported_distance i) (kvalues t) < feasible_distance t.
Proof.
  unfold get_feasible_successor, gets. simpl. intros H.
  injection H as H.
  destruct (feasible_successor_spec cm t i H) as (Hin & _ & _ & F & _).
  split; [assumption |].
  unfold feasible in F. now apply Z.ltb_lt in F.
Qed.

Lemma feasibility_condition_witness :
  fst (get_feasible_successor classic_metric scenario_C)
    = Ret (Some (record_of 2 5 []))
  /\ (In (record_of 2 5 []) (neighbors scenario_C)
      /\ classic_metric (reported_distance (record_of 2 5 []))
           (kvalues scenario_C) < feasible_distance scenario_C).
Proof.
  split.
  - reflexivity.
  - apply (feasibility_condition classic_metric scenario_C (record_of 2 5 [])).
    reflexivity.
Defined.

(** ** The handlers of [StatePassive] *)

(** [StatePassive.handle_update] never gets past the two names it does not
    bind: with a record for the neighbor it stops at [tlv], without one at
    [eigrp], and the entry is left as it was. *)
Lemma StatePassive_handle_update_raises (cm : Metric -> KValues -> Z)
    (nb : NeighborId) (nexthop : NextHop) (metric : Metric)
    (t : TopologyEntry) :
  StatePassive_handle_update cm nb nexthop metric t =
    (Raise (NameError (match find_neighbor nb (neighbors t) with
                       | Some _ => "tlv"
                       | None => "eigrp"
                       end)), t).
Proof.
  unfold StatePassive_handle_update, bind, try_except_KeyError, get_neighbor,
    unbound_name, raise.
  destruct (find_neighbor nb (neighbors t)); reflexivity.
Qed.

Lemma names_unbound :
  ~ In "tlv" module_names /\ ~ In "eigrp" module_names
  /\ ~ In "successor" module_names /\ ~ In "SET_METRIC" module_names
  /\ ~ In "SEND_UPDATE" module_names.
Proof.
  unfold module_names; simpl.
  repeat split; intuition discriminate.
Qed.

(** [fire] of an event that loops on the current state changes nothing. *)
Lemma set_current_same (t : TopologyEntry) :
  set_current (current (fsm t)) t = t.
Proof. destruct t as [p ns su fd [st cu] kv]. reflexivity. Qed.

(** In an active state, an update from a neighbor with no record raises the
    [KeyError] of [get_neighbor] and leaves the entry as it was. *)
Lemma BaseActive_handle_update_KeyError (cm : Metric -> KValues -> Z)
    (s : State) (nb : NeighborId) (nexthop : NextHop) (metric : Metric)
    (t : TopologyEntry) :
  s <> Passive ->
  find_neighbor nb (neighbors t) = None ->
  state_handle_update cm s nb nexthop metric t = (Raise (KeyError nb), t).
Proof.
  intros Hs Hf.
  assert (E : state_handle_update cm s = BaseActive_handle_update s)
    by (destruct s; [contradiction | reflexivity ..]).
  rewrite E. unfold BaseActive_handle_update, bind, get_neighbor.
  now rewrite Hf.
Qed.

(** The public [handle_reply] never hands a list back to its caller. *)
Lemma DualFsm_handle_reply_no_list (cm : Metric -> KValues -> Z)
    (nb : NeighborId) (nexthop : NextHop) (t : TopologyEntry)
    (l : list pyval) :
  fst (DualFsm_handle_reply cm nb nexthop t) <> Ret (RList l).
Proof.
  unfold DualFsm_handle_reply, bind, gets, ret.
  destruct (state_handle_reply cm (_state (fsm t)) nb nexthop t) as [[r | e] t'];
    simpl; discriminate.
Qed.

(** C6. StatePassive.handle_update in normal operation: in scenario A the
    neighbor N1 has its record in the entry, and the update from N1 ends in
    a [NameError] on the name [tlv], not in an action list. *)
Theorem passive_update_raises_NameError :
  find_neighbor 1 (neighbors scenario_A) = Some (record_of 1 10 [])
  /\ DualFsm_handle_update classic_metric 1 0 (metric_of 10) scenario_A
     = (Raise (NameError "tlv"), scenario_A).
Proof. split; reflexivity. Qed.

(** C7. What the public handlers return: in scenario A the state object
    answers a reply with the two-item list [[NO_OP, None]], and
    [DualFsm.handle_reply], which calls it without [return], hands [None]
    to its caller. *)
Theorem handle_reply_returns_None :
  StatePassive_handle_reply 1 0 scenario_A = (Ret list_NO_OP, scenario_A)
  /\ list_NO_OP = RList [PyInt 1; PyNone]
  /\ DualFsm_handle_reply classic_metric 1 0 scenario_A
     = (Ret RNone, scenario_A).
Proof. repeat split; reflexivity. Qed.

(** C9. An update in Passive from a neighbor with no record: the
    [KeyError] is caught, and the handler that is to create the record
    raises [NameError] on the name [eigrp]; no record is created. In the
    active states the [KeyError] reaches the caller. *)
Theorem passive_update_absent_neighbor :
  find_neighbor 1 (neighbors (no_neighbors Passive)) = None
  /\ DualFsm_handle_update classic_metric 1 0 (metric_of 10)
       (no_neighbors Passive)
     = (Raise (NameError "eigrp"), no_neighbors Passive)
  /\ map (fun s => DualFsm_handle_update classic_metric 1 0 (metric_of 10)
                    (no_neighbors s))
         [Active0; Active1; Active2; Active3]
     = map (fun s => (Raise (KeyError 1), no_neighbors s))
         [Active0; Active1; Active2; Active3].
Proof. repeat split; reflexivity. Qed.

(** C4. Leaving Passive in scenario B, where the successor N1 has no
    feasible replacement. The query from N1 calls IE3 and then stops on the
    unbound name [tlv]: the machine is in Active3, no action list is
    returned, the successor is still N1 and no neighbor is flagged. The
    update from N1 with an unreachable metric stops on [tlv] before IE4 is
    called: the machine is still Passive. *)
Theorem entering_active_raises :
  feasible_successor_of classic_metric scenario_B = None
  /\ DualFsm_handle_query classic_metric 1 0 (metric_of 10) scenario_B
     = (Raise (NameError "tlv"), set_current Active3 scenario_B)
  /\ successor (set_current Active3 scenario_B) = Some 1
  /\ reply_wait_set (set_current Active3 scenario_B) = []
  /\ DualFsm_handle_update classic_metric 1 0 unreachable_metric scenario_B
     = (Raise (NameError "tlv"), scenario_B)
  /\ current (fsm scenario_B) = Passive.
Proof. repeat split; reflexivity. Qed.

(** ** The last reply *)

Lemma update_record_waiting_fields (n : NeighborId) (w : list Destination)
    (l : list TopologyNeighborInfo) :
  map neighbor (update_record n (set_waiting_for_reply w) l) = map neighbor l.
Proof.
  unfold update_record. rewrite map_map. apply map_ext.
  intros i. now destruct (neighbor i =? n).
Qed.

(** Removing a reply flag touches the records only. *)
Lemma remove_waiting_frame (nb : NeighborId) (t t1 : TopologyEntry) :
  remove_waiting nb t = (Ret tt, t1) ->
  fsm t1 = fsm t /\ successor t1 = successor t
  /\ feasible_distance t1 = feasible_distance t
  /\ kvalues t1 = kvalues t /\ prefix t1 = prefix t
  /\ map neighbor (neighbors t1) = map neighbor (neighbors t).
Proof.
  unfold remove_waiting. intros H.
  destruct (find_neighbor nb (neighbors t)) as [i |]; [| discriminate].
  destruct (list_remove (prefix t) (waiting_for_reply i)) as [w |];
    [| discriminate].
  injection H as <-. simpl.
  repeat split. apply update_record_waiting_fields.
Qed.

(** What the reply handler of Active3 does with the last reply, step by
    step. *)
Lemma last_reply_run (cm : Metric -> KValues -> Z)
    (nb : NeighborId) (nexthop : NextHop) (t t1 : TopologyEntry) :
  current (fsm t) = Active3 ->
  remove_waiting nb t = (Ret tt, t1) ->
  reply_wait_set t1 = [] ->
  state_handle_reply cm Active3 nb nexthop t =
    (Ret (RList (install_of (feasible_successor_of cm t1)
                 ++ [PyTuple (PyInt SEND_REPLY) (PySuccessor (successor t))])),
     set_current Passive t1).
Proof.
  intros Hc Hr Hl.
  destruct (remove_waiting_frame nb t t1 Hr) as (Hf & Hsu & _).
  assert (Hc1 : current (fsm t1) = Active3) by now rewrite Hf.
  assert (Hsame : set_current Active3 t = t)
    by (rewrite <- Hc; apply set_current_same).
  assert (Hgfs : feasible_successor_of cm (set_current Passive t1)
                 = feasible_successor_of cm t1) by reflexivity.
  simpl. unfold BaseActive_handle_reply, bind, fire.
  rewrite Hc. simpl. rewrite Hsame, Hr.
  unfold all_replies_received, gets. rewrite Hl. simpl.
  unfold StateActive3_received_last_reply, bind, fire. rewrite Hc1. simpl.
  unfold get_feasible_successor, gets, ret. rewrite Hgfs.
  destruct (feasible_successor_of cm t1); simpl; rewrite ?Hsu; reflexivity.
Qed.

(** The reply handler of Active1 and Active2 with the last reply: the flag
    is removed and [_received_last_reply], a stub, returns [None] without
    calling any event. *)
Lemma stub_last_reply_run (cm : Metric -> KValues -> Z) (s : State)
    (nb : NeighborId) (nexthop : NextHop) (t t1 : TopologyEntry) :
  s = Active1 \/ s = Active2 ->
  current (fsm t) = s ->
  remove_waiting nb t = (Ret tt, t1) ->
  reply_wait_set t1 = [] ->
  state_handle_reply cm s nb nexthop t = (Ret RNone, t1).
Proof.
  intros Hs Hc Hr Hl.
  assert (Hsame : set_current s t = t)
    by (rewrite <- Hc; apply set_current_same).
  destruct Hs; subst s; simpl;
    unfold BaseActive_handle_reply, bind, fire;
    rewrite Hc; simpl; rewrite Hsame, Hr;
    unfold all_replies_received, gets; rewrite Hl; reflexivity.
Qed.

(** A reply that is not the last one, in any active state: the flag is
    removed and the handler stops on the attribute [self.NO_OP], which no
    state class has. *)
Lemma pending_reply_run (cm : Metric -> KValues -> Z) (s : State)
    (nb : NeighborId) (nexthop : NextHop) (t t1 : TopologyEntry) :
  s <> Passive ->
  current (fsm t) = s ->
  remove_waiting nb t = (Ret tt, t1) ->
  reply_wait_set t1 <> [] ->
  state_handle_reply cm s nb nexthop t = (Raise (AttributeError "NO_OP"), t1).
Proof.
  intros Hs Hc Hr Hl.
  assert (Hsame : set_current s t = t)
    by (rewrite <- Hc; apply set_current_same).
  destruct s; [contradiction | ..]; simpl;
    unfold BaseActive_handle_reply, bind, fire;
    rewrite Hc; simpl; rewrite Hsame, Hr;
    unfold all_replies_received, gets;
    destruct (reply_wait_set t1); try contradiction; reflexivity.
Qed.

(** While the handler object is the Passive one, the public [handle_reply]
    does nothing at all, whatever the state of the Fysom machine. *)
Lemma passive_object_ignores_reply (cm : Metric -> KValues -> Z)
    (nb : NeighborId) (nexthop : NextHop) (t : TopologyEntry) :
  _state (fsm t) = Passive ->
  DualFsm_handle_reply cm nb nexthop t = (Ret RNone, t).
Proof.
  intros H. unfold DualFsm_handle_reply, bind, gets. now rewrite H.
Qed.

(** C2. Termination of the diffusing computation, at the second half of
    scenario B: the entry is in Active1 (or Active2) and N2 is the only
    neighbor owing a reply. After the reply of N2 the reply-wait set is
    empty and the machine is still in Active1 (Active2): no event was
    called and [None] was returned. Through the public methods alone: the
    query of the successor N1 in scenario B leaves the machine in Active3
    with the Passive handler object, and the replies of N1 and N2 then
    change nothing. *)
Theorem last_reply_in_stub_states :
  reply_wait_set (awaiting_N2 Active1) = [2]
  /\ state_handle_reply classic_metric Active1 2 0 (awaiting_N2 Active1)
     = (Ret RNone, entry_of [record_of 2 50 []] None 10 Active1)
  /\ DualFsm_handle_reply classic_metric 2 0 (awaiting_N2 Active1)
     = (Ret RNone, entry_of [record_of 2 50 []] None 10 Active1)
  /\ reply_wait_set (entry_of [record_of 2 50 []] None 10 Active1) = []
  /\ current (fsm (entry_of [record_of 2 50 []] None 10 Active1)) = Active1
  /\ reply_wait_set (awaiting_N2 Active2) = [2]
  /\ DualFsm_handle_reply classic_metric 2 0 (awaiting_N2 Active2)
     = (Ret RNone, entry_of [record_of 2 50 []] None 10 Active2)
  /\ current (fsm (entry_of [record_of 2 50 []] None 10 Active2)) = Active2
  /\ snd (DualFsm_handle_query classic_metric 1 0 (metric_of 10) scenario_B)
     = set_current Active3 scenario_B
  /\ DualFsm_handle_reply classic_metric 1 0 (set_current Active3 scenario_B)
     = (Ret RNone, set_current Active3 scenario_B)
  /\ DualFsm_handle_reply classic_metric 2 0 (set_current Active3 scenario_B)
     = (Ret RNone, set_current Active3 scenario_B)
  /\ current (fsm (set_current Active3 scenario_B)) = Active3.
Proof. repeat split; reflexivity. Qed.

(** C5. The completion rule at the second half of scenario B: N2 (50) is
    the sole neighbor and the only one owing a reply, the feasible distance
    is frozen at 10. In Active1, as the scenario has it, the reply of N2
    returns [None], through the state object and through [DualFsm] alike:
    the machine stays in Active1, the feasible distance stays 10 and there is
    no successor. In Active3, whose last-reply method is written, the
    machine goes to Passive, but the feasible distance is still 10, no
    successor is set, and the one action returned is the reply to the old
    successor: N2 is not installed. In neither state is the feasible
    distance the least computed distance, nor its holder the successor.
    Through the public methods, from scenario B in Passive, the update that
    loses N1 raises and the reply of N2 then returns [None] and changes
    nothing. *)
Theorem scenario_B_last_reply :
  reply_wait_set (awaiting_N2 Active1) = [2]
  /\ minimum (neighbors (awaiting_N2 Active1))
     = Some (record_of 2 50 [dest_D])
  /\ state_handle_reply classic_metric Active1 2 0 (awaiting_N2 Active1)
     = (Ret RNone, entry_of [record_of 2 50 []] None 10 Active1)
  /\ DualFsm_handle_reply classic_metric 2 0 (awaiting_N2 Active1)
     = (Ret RNone, entry_of [record_of 2 50 []] None 10 Active1)
  /\ ~ completion_rule classic_metric (awaiting_N2 Active1) 2
  /\ state_handle_reply classic_metric Active3 2 0 (awaiting_N2 Active3)
     = (Ret (RList [PyTuple (PyInt SEND_REPLY) PyNoSuccessor]),
        set_current Passive (entry_of [record_of 2 50 []] None 10 Active3))
  /\ ~ completion_rule classic_metric (awaiting_N2 Active3) 2
  /\ DualFsm_handle_update classic_metric 1 0 unreachable_metric scenario_B
     = (Raise (NameError "tlv"), scenario_B)
  /\ DualFsm_handle_reply classic_metric 2 0 scenario_B
     = (Ret RNone, scenario_B).
Proof.
  repeat (split; [reflexivity |]).
  split; [unfold completion_rule; vm_compute; intros [H _]; discriminate H |].
  split; [reflexivity |].
  split; [unfold completion_rule; vm_compute; intros [H _]; discriminate H |].
  split; reflexivity.
Qed.

(** ** The K-values check of [EIGRP.__init__] *)

Lemma check_each_ok (l : list Z) :
  check_each l = Ret tt <-> Forall is_byte l.
Proof.
  induction l as [| k l IH]; simpl.
  - split; [constructor | reflexivity].
  - destruct ((0 <=? k) && (k <=? 255)) eqn:E; simpl.
    + apply andb_true_iff in E as [E1 E2].
      apply Z.leb_le in E1. apply Z.leb_le in E2.
      rewrite IH. split.
      * intros H. constructor; [split; assumption | assumption].
      * intros H. now inversion H.
    + split; [discriminate |].
      intros H. inversion H as [| ? ? [H1 H2] _]; subst.
      apply Z.leb_le in H1. apply Z.leb_le in H2.
      rewrite H1, H2 in E. discriminate.
Qed.

(** What the check lets through: the lists of exactly six values between 0
    and 255, and nothing else. *)
Lemma check_kvalues_accepts (kv kv' : kvalues_arg) :
  check_kvalues kv = Ret kv'
  <-> kv' = kv /\ exists l, kv = KList l /\ List.length l = 6%nat
                            /\ Forall is_byte l.
Proof.
  unfold check_kvalues. destruct kv as [| z | l]; simpl.
  - split; [discriminate | intros (_ & l & H & _); discriminate].
  - destruct (z =? 0); (split; [discriminate |]);
      intros (_ & l & H & _); discriminate.
  - destruct l as [| a l].
    + split; [discriminate |]. intros (_ & l & H & Hl & _).
      injection H as <-. discriminate.
    + cbn [and_then len].
      destruct (Z.of_nat (List.length (a :: l)) =? 6) eqn:E; cbn [negb].
      * apply Z.eqb_eq in E.
        destruct (check_each (a :: l)) as [[] | e] eqn:C; cbn [and_then].
        -- split.
           ++ intros H. injection H as <-. split; [reflexivity |].
              exists (a :: l). repeat split; [lia |].
              now apply check_each_ok.
           ++ intros (-> & _). reflexivity.
        -- split; [discriminate |]. intros (_ & l' & H & _ & F).
           injection H as <-. apply check_each_ok in F. congruence.
      * apply Z.eqb_neq in E. split; [discriminate |].
        intros (_ & l' & H & Hl & _). injection H as <-.
        rewrite Hl in E. exfalso. now apply E.
Qed.

(** C8. The K-values check: the list of six zeros passes every check of
    [EIGRP.__init__] and is stored as the K-values of the instance; the
    test for a non-zero K-value is never reached. *)
Theorem all_zero_kvalues_accepted :
  check_kvalues (KList [0; 0; 0; 0; 0; 0]) = Ret (KList [0; 0; 0; 0; 0; 0])
  /\ EIGRP_init 1 1 (KList [0; 0; 0; 0; 0; 0]) 5 2
     = Ret {| _rid := 1; _asn := 1; _hello_interval := 5;
              _instance_holdtime := 15;
              _kvalues := KList [0; 0; 0; 0; 0; 0] |}.
Proof. split; reflexivity. Qed.

(** ** The parameter TLV *)

Lemma pack_B_ok (v : Z) : is_byte v -> pack_B v = Ret [v].
Proof.
  intros [H1 H2]. unfold pack_B.
  apply Z.leb_le in H1. apply Z.leb_le in H2. now rewrite H1, H2.
Qed.

Lemma pack_H_be_ok (v : Z) :
  is_u16 v -> pack_H_be v = Ret [Z.shiftr v 8; Z.land v 255].
Proof.
  intros [H1 H2]. unfold pack_H_be.
  apply Z.leb_le in H1. apply Z.leb_le in H2. now rewrite H1, H2.
Qed.

(** The two bytes of a big-endian ['H'], read in the same order, give the
    value back. *)
Lemma join_split_be (v : Z) :
  Z.lor (Z.shiftl (Z.shiftr v 8) 8) (Z.land v 255) = v.
Proof.
  apply Z.bits_inj'. intros n Hn.
  rewrite Z.lor_spec, Z.land_spec, Z.shiftl_spec by lia.
  change 255 with (Z.ones 8).
  destruct (Z.ltb_spec n 8).
  - rewrite Z.testbit_neg_r by lia.
    rewrite Z.ones_spec_low by lia. simpl. apply andb_true_r.
  - rewrite Z.shiftr_spec by lia. replace (n - 8 + 8) with n by lia.
    rewrite Z.ones_spec_high by lia.
    now rewrite andb_false_r, orb_false_r.
Qed.

(** The bytes [pack] writes for a field built from values in range. *)
Lemma pack_bytes (a1 a2 a3 a4 a5 a6 h : Z) (f : EIGRPFieldParam) :
  is_byte a1 -> is_byte a2 -> is_byte a3 ->
  is_byte a4 -> is_byte a5 -> is_byte a6 -> is_u16 h ->
  EIGRPFieldParam_of_values a1 a2 a3 a4 a5 a6 h = Ret f ->
  pack f = Ret [0; 1; 0; 12; a1; a2; a3; a4; a5; a6;
                Z.shiftr h 8; Z.land h 255].
Proof.
  intros B1 B2 B3 B4 B5 B6 Hh.
  unfold EIGRPFieldParam_of_values.
  destruct (negb (h =? 0)); [| discriminate].
  intros H. injection H as <-.
  unfold pack; cbn [_type _len _proto _k1 _k2 _k3 _k4 _k5 _k6 _holdtime].
  cbn [pack_Bs].
  rewrite (pack_B_ok a1 B1), (pack_B_ok a2 B2), (pack_B_ok a3 B3),
    (pack_B_ok a4 B4), (pack_B_ok a5 B5), (pack_B_ok a6 B6),
    (pack_H_be_ok h Hh).
  reflexivity.
Qed.

(** On a big-endian host the parsed field carries the values that were
    packed. *)
Lemma roundtrip_big_endian (a1 a2 a3 a4 a5 a6 h : Z) (f : EIGRPFieldParam) :
  is_byte a1 -> is_byte a2 -> is_byte a3 ->
  is_byte a4 -> is_byte a5 -> is_byte a6 -> is_u16 h ->
  EIGRPFieldParam_of_values a1 a2 a3 a4 a5 a6 h = Ret f ->
  exists f', pack_then_build big f = Ret f'
    /\ (_k1 f', _k2 f', _k3 f', _k4 f', _k5 f', _k6 f')
       = (a1, a2, a3, a4, a5, a6)
    /\ _holdtime f' = h.
Proof.
  intros B1 B2 B3 B4 B5 B6 Hh Hf.
  unfold pack_then_build.
  rewrite (pack_bytes a1 a2 a3 a4 a5 a6 h f B1 B2 B3 B4 B5 B6 Hh Hf).
  eexists. split; [reflexivity |]. split; [reflexivity |].
  cbn [_holdtime]. apply join_split_be.
Qed.

(** On a little-endian host the K-values come back and the holdtime comes
    back with its two bytes exchanged. *)
Lemma roundtrip_little_endian (a1 a2 a3 a4 a5 a6 h : Z)
    (f : EIGRPFieldParam) :
  is_byte a1 -> is_byte a2 -> is_byte a3 ->
  is_byte a4 -> is_byte a5 -> is_byte a6 -> is_u16 h ->
  EIGRPFieldParam_of_values a1 a2 a3 a4 a5 a6 h = Ret f ->
  exists f', pack_then_build little f = Ret f'
    /\ (_k1 f', _k2 f', _k3 f', _k4 f', _k5 f', _k6 f')
       = (a1, a2, a3, a4, a5, a6)
    /\ _holdtime f' = Z.lor (Z.shiftr h 8) (Z.shiftl (Z.land h 255) 8).
Proof.
  intros B1 B2 B3 B4 B5 B6 Hh Hf.
  unfold pack_then_build.
  rewrite (pack_bytes a1 a2 a3 a4 a5 a6 h f B1 B2 B3 B4 B5 B6 Hh Hf).
  eexists. repeat split; reflexivity.
Qed.

(** C10. Round trip of the parameter TLV on a little-endian host: the
    field of the default K-values with holdtime 15 packs to twelve bytes,
    and the field parsed back from them has the same K-values and the
    holdtime 3840. *)
Theorem param_roundtrip_little_endian :
  (f <~ default_param ;; pack f)
    = Ret [0; 1; 0; 12; 1; 74; 1; 0; 0; 0; 0; 15]
  /\ (f <~ default_param ;; pack_then_build little f)
     = Ret {| _proto := 0; _type := None; _len := None;
              _k1 := 1; _k2 := 74; _k3 := 1; _k4 := 0; _k5 := 0; _k6 := 0;
              _holdtime := 3840 |}.
Proof. split; reflexivity. Qed.

(** ** What the handlers leave alone *)

Lemma frame_refl (t : TopologyEntry) : frame t t.
Proof. repeat split. Qed.

Lemma frame_trans (a b c : TopologyEntry) :
  frame a b -> frame b c -> frame a c.
Proof.
  unfold frame. intros (A1 & A2 & A3 & A4 & A5) (B1 & B2 & B3 & B4 & B5).
  repeat split; congruence.
Qed.

Lemma preserves_ret {A} (a : A) : preserves (ret a).
Proof. intros t. apply frame_refl. Qed.

Lemma preserves_raise {A} (e : exn) : preserves (@raise A e).
Proof. intros t. apply frame_refl. Qed.

Lemma preserves_unbound_name {A} (n : string) : preserves (@unbound_name A n).
Proof. intros t. apply frame_refl. Qed.

Lemma preserves_gets {A} (f : TopologyEntry -> A) : preserves (gets f).
Proof. intros t. apply frame_refl. Qed.

Lemma preserves_bind {A B} (m : M A) (k : A -> M B) :
  preserves m -> (forall a, preserves (k a)) -> preserves (bind m k).
Proof.
  intros Hm Hk t. unfold bind. specialize (Hm t).
  destruct (m t) as [[a | e] t1]; simpl in *.
  - eapply frame_trans; [exact Hm | apply Hk].
  - exact Hm.
Qed.

Lemma preserves_try {A} (m h : M A) :
  preserves m -> preserves h -> preserves (try_except_KeyError m h).
Proof.
  intros Hm Hh t. unfold try_except_KeyError. specialize (Hm t).
  destruct (m t) as [[a | e] t1]; simpl in *; [exact Hm |].
  destruct e; simpl; try exact Hm.
  eapply frame_trans; [exact Hm | apply Hh].
Qed.

Lemma preserves_fire (e : Event) : preserves (fire e).
Proof.
  intros t. unfold fire.
  destruct (Fysom.next e (current (fsm t))); simpl; repeat split.
Qed.

Lemma preserves_set_neighbors
    (f : TopologyEntry -> list TopologyNeighborInfo) :
  preserves (modify (fun t => set_neighbors (f t) t)).
Proof. intros t. repeat split. Qed.

Lemma preserves_for_each {A} (l : list A) (body : A -> M unit) :
  (forall x, preserves (body x)) -> preserves (for_each l body).
Proof.
  intros H. induction l as [| x l IH]; simpl.
  - apply preserves_ret.
  - apply preserves_bind; [apply H | intros _; exact IH].
Qed.

Lemma preserves_get_neighbor (n : NeighborId) :
  preserves (get_neighbor n).
Proof.
  intros t. unfold get_neighbor.
  destruct (find_neighbor n (neighbors t)); apply frame_refl.
Qed.

Lemma preserves_remove_waiting (n : NeighborId) :
  preserves (remove_waiting n).
Proof.
  intros t. unfold remove_waiting.
  destruct (find_neighbor n (neighbors t)) as [i |]; [| apply frame_refl].
  destruct (list_remove (prefix t) (waiting_for_reply i));
    simpl; repeat split.
Qed.

Create HintDb frame.
#[local] Hint Resolve preserves_ret preserves_raise preserves_unbound_name
  preserves_gets preserves_fire preserves_set_neighbors
  preserves_get_neighbor preserves_remove_waiting : frame.

Ltac frame_step :=
  first
    [ apply preserves_bind; [| intros ? ]
    | apply preserves_try
    | apply preserves_for_each; intros ?
    | match goal with
      | |- preserves (if ?b then _ else _) => destruct b
      | |- preserves (match ?x with _ => _ end) => destruct x
      end
    | solve [ auto with frame ] ].

Ltac frame_auto := repeat frame_step.

(** No handler of any state object changes the feasible distance, the
    successor or the handler object of the entry: installing and
    uninstalling a successor is left to the caller, as the actions say. *)
Lemma state_handlers_preserve (cm : Metric -> KValues -> Z) (s : State)
    (nb : NeighborId) (nexthop : NextHop) (metric : Metric) :
  preserves (state_handle_update cm s nb nexthop metric)
  /\ preserves (state_handle_query cm s nb nexthop metric)
  /\ preserves (state_handle_reply cm s nb nexthop)
  /\ preserves (state_handle_link_down s nb)
  /\ preserves (state_handle_link_metric_change s nb).
Proof.
  repeat split; destruct s; simpl;
    unfold StatePassive_handle_update, StatePassive_handle_query,
      StatePassive_handle_reply, StatePassive_handle_link_down,
      StatePassive_handle_link_metric_change,
      BaseActive_handle_update, BaseActive_handle_query,
      BaseActive_handle_reply, StateActive_handle_link_down,
      BaseActive_handle_link_metric_change,
      handle_query_from_successor, received_last_reply,
      StateActive0_received_last_reply, StateActive1_received_last_reply,
      StateActive2_received_last_reply, StateActive3_received_last_reply,
      get_feasible_successor, get_kvalues, all_replies_received, deref,
      update_neighbor, update_full_distance, append_waiting, add_neighbor;
    frame_auto.
Qed.

(** ** Replies in Active3 *)

Lemma update_record_absent (n : NeighborId)
    (f : TopologyNeighborInfo -> TopologyNeighborInfo)
    (l : list TopologyNeighborInfo) :
  ~ In n (map neighbor l) -> update_record n f l = l.
Proof.
  induction l as [| r l IH]; simpl; intros H; [reflexivity |].
  destruct (neighbor r =? n) eqn:E.
  - apply Z.eqb_eq in E. exfalso. apply H. now left.
  - f_equal. apply IH. intros Hin. apply H. now right.
Qed.

Lemma filter_absent (n : NeighborId) (l : list NeighborId) :
  ~ In n l -> filter (fun x => negb (x =? n)) l = l.
Proof.
  induction l as [| x l IH]; simpl; intros H; [reflexivity |].
  destruct (x =? n) eqn:E; simpl.
  - apply Z.eqb_eq in E. exfalso. apply H. now left.
  - f_equal. apply IH. intros Hin. apply H. now right.
Qed.

Lemma mem_list_remove (p : Destination) (w : list Destination) :
  mem p w = true -> exists w', list_remove p w = Some w'.
Proof.
  induction w as [| y w IH]; simpl; [discriminate |].
  rewrite String.eqb_sym.
  destruct (String.eqb y p) eqn:E; simpl.
  - intros _. now exists w.
  - intros H. destruct (IH H) as [w' ->]. now exists (y :: w').
Qed.

Lemma no_flag_flag_once (p : Destination) (w : list Destination) :
  mem p w = false -> flag_once p w.
Proof.
  intros H w' Hr. exfalso.
  assert (Hm : mem p w = true).
  { clear H. revert w' Hr. induction w as [| y w IH]; simpl; intros w' Hr.
    - discriminate.
    - rewrite String.eqb_sym. destruct (String.eqb y p); [reflexivity |].
      simpl. destruct (list_remove p w) as [r |] eqn:E; [| discriminate].
      now apply (IH r). }
  congruence.
Qed.

(** Removing the flag of a flagged neighbor in a well-formed table takes
    that neighbor, and no other, out of the reply-wait set. *)
Lemma remove_flag_table (p : Destination) (nb : NeighborId)
    (l : list TopologyNeighborInfo) :
  NoDup (map neighbor l) ->
  Forall (fun i => flag_once p (waiting_for_reply i)) l ->
  In nb (map neighbor (filter (fun i => mem p (waiting_for_reply i)) l)) ->
  exists i w,
    find_neighbor nb l = Some i
    /\ list_remove p (waiting_for_reply i) = Some w
    /\ map neighbor
         (filter (fun i => mem p (waiting_for_reply i))
            (update_record nb (set_waiting_for_reply w) l))
       = filter (fun x => negb (x =? nb))
           (map neighbor (filter (fun i => mem p (waiting_for_reply i)) l))
    /\ Forall (fun i => flag_once p (waiting_for_reply i))
         (update_record nb (set_waiting_for_reply w) l).
Proof.
  induction l as [| r l IH]; intros Hnd Hfo Hin; [contradiction |].
  simpl in Hnd. inversion Hnd as [| ? ? Hnotin Hnd']; subst.
  inversion Hfo as [| ? ? Hr Hfo']; subst.
  unfold find_neighbor. simpl.
  destruct (neighbor r =? nb) eqn:E.
  - apply Z.eqb_eq in E. subst nb.
    assert (Hm : mem p (waiting_for_reply r) = true).
    { simpl in Hin. destruct (mem p (waiting_for_reply r)); [reflexivity |].
      exfalso. apply Hnotin.
      apply in_map_iff in Hin as (j & Hj & Hin).
      apply filter_In in Hin as [Hin _].
      apply in_map_iff. now exists j. }
    destruct (mem_list_remove _ _ Hm) as [w Hw].
    exists r, w. split; [reflexivity |]. split; [exact Hw |].
    rewrite (update_record_absent _ _ l Hnotin).
    simpl. rewrite (Hr w Hw), Hm. simpl. rewrite Z.eqb_refl. simpl.
    split.
    + symmetry. apply filter_absent. intros Hin'. apply Hnotin.
      apply in_map_iff in Hin' as (j & Hj & Hin').
      apply filter_In in Hin' as [Hin' _].
      apply in_map_iff. now exists j.
    + constructor; [| assumption]. simpl.
      apply no_flag_flag_once. exact (Hr w Hw).
  - assert (Hin' : In nb (map neighbor
                     (filter (fun i => mem p (waiting_for_reply i)) l))).
    { simpl in Hin. destruct (mem p (waiting_for_reply r)); [| exact Hin].
      destruct Hin as [Hin | Hin]; [| exact Hin].
      rewrite Hin, Z.eqb_refl in E. discriminate. }
    destruct (IH Hnd' Hfo' Hin') as (i & w & Hf & Hw & Hmap & Hall).
    exists i, w. split; [exact Hf |]. split; [exact Hw |].
    simpl. destruct (mem p (waiting_for_reply r)) eqn:Hm; simpl.
    + rewrite E. simpl. split; [now f_equal |]. now constructor.
    + split; [exact Hmap |]. now constructor.
Qed.

(** The same on an entry, through [remove_waiting]. *)
Lemma remove_waiting_flagged (nb : NeighborId) (t : TopologyEntry) :
  well_formed t ->
  In nb (reply_wait_set t) ->
  exists t1,
    remove_waiting nb t = (Ret tt, t1)
    /\ reply_wait_set t1
       = filter (fun x => negb (x =? nb)) (reply_wait_set t)
    /\ well_formed t1
    /\ fsm t1 = fsm t.
Proof.
  intros [Hnd Hfo] Hin. unfold reply_wait_set in Hin.
  destruct (remove_flag_table (prefix t) nb (neighbors t) Hnd Hfo Hin)
    as (i & w & Hf & Hw & Hmap & Hall).
  unfold remove_waiting. rewrite Hf, Hw.
  eexists. split; [reflexivity |].
  unfold reply_wait_set, well_formed. simpl.
  split; [exact Hmap |]. split; [| reflexivity].
  split; [| exact Hall].
  now rewrite update_record_waiting_fields.
Qed.

(** Termination in Active3: on a well-formed entry, once a reply of every
    neighbor of the reply-wait set has been delivered, in any order, the
    machine is Passive and the reply-wait set is empty. *)
Lemma replies_terminate (cm : Metric -> KValues -> Z)
    (l : list NeighborId) :
  forall t,
    current (fsm t) = Active3 ->
    well_formed t ->
    NoDup l ->
    l <> [] ->
    (forall x, In x l <-> In x (reply_wait_set t)) ->
    current (fsm (deliver_replies cm Active3 l t)) = Passive
    /\ reply_wait_set (deliver_replies cm Active3 l t) = [].
Proof.
  induction l as [| nb rest IH]; intros t Hc Hwf Hnd Hne Hsame;
    [contradiction |].
  apply NoDup_cons_iff in Hnd as [Hnotin Hnd'].
  assert (Hin : In nb (reply_wait_set t)) by (apply Hsame; now left).
  destruct (remove_waiting_flagged nb t Hwf Hin) as (t1 & Hr & Hset & Hwf1 & Hf).
  assert (Hsame1 : forall x, In x rest <-> In x (reply_wait_set t1)).
  { intros x. rewrite Hset, filter_In, negb_true_iff, Z.eqb_neq. split.
    - intros Hx. split; [apply Hsame; now right |].
      intros ->. contradiction.
    - intros [Hx Hneq]. apply Hsame in Hx as [Hx | Hx]; [| exact Hx].
      congruence. }
  unfold deliver_replies. cbn [fold_left].
  destruct rest as [| nb' rest'].
  - assert (Hl : reply_wait_set t1 = []).
    { destruct (reply_wait_set t1) as [| x r]; [reflexivity |].
      exfalso. apply (Hsame1 x). now left. }
    rewrite (last_reply_run cm nb 0 t t1 Hc Hr Hl). cbn [snd fold_left].
    split; [reflexivity | exact Hl].
  - assert (Hl : reply_wait_set t1 <> []).
    { intros E. assert (Hx : In nb' (reply_wait_set t1))
        by (apply Hsame1; now left).
      rewrite E in Hx. contradiction. }
    assert (Hp : Active3 <> Passive) by discriminate.
    rewrite (pending_reply_run cm Active3 nb 0 t t1 Hp Hc Hr Hl). simpl snd.
    assert (Hc1 : current (fsm t1) = Active3) by now rewrite Hf.
    apply (IH t1 Hc1 Hwf1 Hnd'); [discriminate | exact Hsame1].
Qed.

(** The public methods leave the same fields alone; in particular the
    handler object chosen in [DualFsm.__init__] is the one every later call
    is dispatched to. *)
Lemma public_handlers_preserve (cm : Metric -> KValues -> Z)
    (nb : NeighborId) (nexthop : NextHop) (metric : Metric) :
  preserves (DualFsm_handle_update cm nb nexthop metric)
  /\ preserves (DualFsm_handle_query cm nb nexthop metric)
  /\ preserves (DualFsm_handle_reply cm nb nexthop)
  /\ preserves (DualFsm_handle_link_down nb)
  /\ preserves (DualFsm_handle_link_metric_change nb).
Proof.
  unfold DualFsm_handle_update, DualFsm_handle_query, DualFsm_handle_reply,
    DualFsm_handle_link_down, DualFsm_handle_link_metric_change.
  repeat split;
    (apply preserves_bind; [apply preserves_gets | intros s]);
    try (apply preserves_bind; [| intros ?; apply preserves_ret]);
    apply (state_handlers_preserve cm s nb nexthop metric).
Qed.

(** ** More on the handlers of the state objects *)

Lemma Metric_eqb_eq (a b : Metric) : Metric_eqb a b = true -> a = b.
Proof.
  unfold Metric_eqb. intros H.
  repeat (apply andb_true_iff in H as [H ?]).
  destruct a, b; simpl in *.
  repeat match goal with
         | E : (_ =? _) = true |- _ => apply Z.eqb_eq in E
         end.
  congruence.
Qed.

Lemma find_update_record (n nb : NeighborId)
    (f : TopologyNeighborInfo -> TopologyNeighborInfo)
    (l : list TopologyNeighborInfo) :
  (forall r, neighbor (f r) = neighbor r) ->
  find_neighbor n (update_record nb f l)
  = if n =? nb then option_map f (find_neighbor n l)
    else find_neighbor n l.
Proof.
  intros Hf. unfold find_neighbor.
  induction l as [| r l IH]; simpl.
  - now destruct (n =? nb).
  - destruct (neighbor r =? nb) eqn:E1.
    + rewrite Hf. apply Z.eqb_eq in E1.
      destruct (neighbor r =? n) eqn:E2.
      * apply Z.eqb_eq in E2.
        assert (E : (n =? nb) = true) by (apply Z.eqb_eq; congruence).
        now rewrite E.
      * exact IH.
    + destruct (neighbor r =? n) eqn:E2; [| exact IH].
      apply Z.eqb_eq in E2. apply Z.eqb_neq in E1.
      assert (E : (n =? nb) = false) by (apply Z.eqb_neq; congruence).
      now rewrite E.
Qed.

Lemma find_neighbor_id (n : NeighborId) (l : list TopologyNeighborInfo)
    (i : TopologyNeighborInfo) :
  find_neighbor n l = Some i -> neighbor i = n.
Proof.
  unfold find_neighbor. intros H. apply find_some in H as [_ H].
  now apply Z.eqb_eq in H.
Qed.

(** A query in Passive, as [StatePassive.handle_query] answers it: the
    two-item list [[SEND_REPLY, fs]] when the query comes from the successor
    and a feasible successor exists; in every other case the handler
    raises, after IE3 (the machine is then in Active3) on the name [tlv],
    after IE1 on the name [successor]. *)
Theorem passive_query_outcomes (cm : Metric -> KValues -> Z)
    (nb : NeighborId) (nexthop : NextHop) (metric : Metric)
    (t : TopologyEntry) :
  current (fsm t) = Passive ->
  StatePassive_handle_query cm nb nexthop metric t =
    match successor t with
    | Some s =>
        if s =? nb then
          match feasible_successor_of cm t with
          | Some f => (Ret (RList [PyInt SEND_REPLY; PyInfo f]), t)
          | None => (Raise (NameError "tlv"), set_current Active3 t)
          end
        else (Raise (NameError "successor"), t)
    | None => (Raise (NameError "successor"), t)
    end.
Proof.
  intros Hc.
  assert (Hsame : set_current Passive t = t)
    by (rewrite <- Hc; apply set_current_same).
  unfold StatePassive_handle_query, bind, get_feasible_successor, gets.
  destruct (successor t) as [s |]; [destruct (s =? nb) |].
  - destruct (feasible_successor_of cm t); [reflexivity |].
    unfold fire. rewrite Hc. reflexivity.
  - unfold fire. rewrite Hc. simpl. now rewrite Hsame.
  - unfold fire. rewrite Hc. simpl. now rewrite Hsame.
Qed.

Lemma passive_query_outcomes_witness :
  current (fsm scenario_C) = Passive
  /\ StatePassive_handle_query classic_metric 1 0 (metric_of 10) scenario_C =
       match successor scenario_C with
       | Some s =>
           if s =? 1 then
             match feasible_successor_of classic_metric scenario_C with
             | Some f => (Ret (RList [PyInt SEND_REPLY; PyInfo f]),
                          scenario_C)
             | None => (Raise (NameError "tlv"),
                        set_current Active3 scenario_C)
             end
           else (Raise (NameError "successor"), scenario_C)
       | None => (Raise (NameError "successor"), scenario_C)
       end.
Proof.
  split; [reflexivity |].
  apply (passive_query_outcomes classic_metric 1 0 (metric_of 10) scenario_C).
  reflexivity.
Defined.

(** An update in an active state from a neighbor with a record: the answer
    is [[NO_OP, None]], the record holds the new reported distance and
    keeps its computed distance, its reachability and its reply flags as
    they were; no other record and nothing else in the entry changes. *)
Theorem active_update_records (cm : Metric -> KValues -> Z) (s : State)
    (nb : NeighborId) (nexthop : NextHop) (metric : Metric)
    (t : TopologyEntry) (i : TopologyNeighborInfo) :
  s <> Passive ->
  current (fsm t) = s ->
  find_neighbor nb (neighbors t) = Some i ->
  exists t',
    state_handle_update cm s nb nexthop metric t = (Ret list_NO_OP, t')
    /\ find_neighbor nb (neighbors t') = Some (set_reported_distance metric i)
    /\ (forall n, n <> nb ->
          find_neighbor n (neighbors t') = find_neighbor n (neighbors t))
    /\ fsm t' = fsm t
    /\ successor t' = successor t
    /\ feasible_distance t' = feasible_distance t.
Proof.
  intros Hs Hc Hf.
  assert (Hsame : set_current s t = t)
    by (rewrite <- Hc; apply set_current_same).
  assert (E : state_handle_update cm s = BaseActive_handle_update s)
    by (destruct s; [contradiction | reflexivity ..]).
  assert (Hn : Fysom.next IE7 s = Some s)
    by (destruct s; [contradiction | reflexivity ..]).
  rewrite E. unfold BaseActive_handle_update, bind, get_neighbor.
  rewrite Hf.
  destruct (Metric_eqb (reported_distance i) metric) eqn:Em; simpl.
  - apply Metric_eqb_eq in Em. exists t. repeat split; try reflexivity.
    rewrite Hf. f_equal. subst metric. now destruct i.
  - unfold fire. rewrite Hc, Hn, Hsame, Hf. simpl.
    rewrite (find_neighbor_id _ _ _ Hf).
    eexists. split; [reflexivity |]. simpl.
    split; [| split; [| repeat split]].
    + rewrite find_update_record by reflexivity.
      now rewrite Z.eqb_refl, Hf.
    + intros n Hneq. rewrite find_update_record by reflexivity.
      apply Z.eqb_neq in Hneq. now rewrite Hneq.
Qed.

Lemma active_update_records_witness :
  Active3 <> Passive
  /\ current (fsm (awaiting_N2 Active3)) = Active3
  /\ find_neighbor 2 (neighbors (awaiting_N2 Active3))
     = Some (record_of 2 50 [dest_D])
  /\ exists t',
       state_handle_update classic_metric Active3 2 0 (metric_of 7)
         (awaiting_N2 Active3) = (Ret list_NO_OP, t')
       /\ find_neighbor 2 (neighbors t')
          = Some (set_reported_distance (metric_of 7)
                    (record_of 2 50 [dest_D]))
       /\ (forall n, n <> 2 ->
             find_neighbor n (neighbors t')
             = find_neighbor n (neighbors (awaiting_N2 Active3)))
       /\ fsm t' = fsm (awaiting_N2 Active3)
       /\ successor t' = successor (awaiting_N2 Active3)
       /\ feasible_distance t' = feasible_distance (awaiting_N2 Active3).
Proof.
  split; [discriminate |]. split; [reflexivity |]. split; [reflexivity |].
  apply (active_update_records classic_metric Active3 2 0 (metric_of 7)
           (awaiting_N2 Active3) (record_of 2 50 [dest_D]));
    [discriminate | reflexivity | reflexivity].
Defined.

(** A query in an active state never gets an answer, and the entry is
    left as it was: from the successor the call of
    [_handle_query_from_successor] raises [TypeError]; from anyone else the
    handler calls IE6 and then raises [NameError] on the name [successor]
    when the machine is in an active state, and IE6 itself is refused with
    Fysom's error when the machine is in Passive. *)
Theorem active_query_raises (cm : Metric -> KValues -> Z) (s : State)
    (nb : NeighborId) (nexthop : NextHop) (metric : Metric)
    (t : TopologyEntry) :
  s <> Passive ->
  state_handle_query cm s nb nexthop metric t =
    (Raise
       (if match successor t with
           | Some s' => nb =? s'
           | None => false
           end
        then TypeError
          "_handle_query_from_successor() takes exactly 5 arguments (6 given)"
        else match current (fsm t) with
             | Passive => FysomError IE6 Passive
             | _ => NameError "successor"
             end), t).
Proof.
  intros Hs.
  assert (E : state_handle_query cm s = BaseActive_handle_query s)
    by (destruct s; [contradiction | reflexivity ..]).
  rewrite E. unfold BaseActive_handle_query, bind, gets,
    handle_query_from_successor, raise.
  destruct (match successor t with
            | Some s' => nb =? s'
            | None => false
            end); [reflexivity |].
  unfold fire.
  destruct (current (fsm t)) eqn:Hc; simpl; try reflexivity;
    rewrite <- Hc, set_current_same; reflexivity.
Qed.

Lemma active_query_raises_witness :
  Active3 <> Passive
  /\ state_handle_query classic_metric Active3 2 0 (metric_of 50)
       (awaiting_N2 Active3) =
       (Raise
          (if match successor (awaiting_N2 Active3) with
              | Some s' => 2 =? s'
              | None => false
              end
           then TypeError
             "_handle_query_from_successor() takes exactly 5 arguments (6 given)"
           else match current (fsm (awaiting_N2 Active3)) with
                | Passive => FysomError IE6 Passive
                | _ => NameError "successor"
                end), awaiting_N2 Active3).
Proof.
  split; [discriminate |].
  apply (active_query_raises classic_metric Active3 2 0 (metric_of 50)
           (awaiting_N2 Active3)).
  discriminate.
Defined.

Lemma no_flag_no_remove (p : Destination) (w : list Destination) :
  mem p w = false -> list_remove p w = None.
Proof.
  induction w as [| y w IH]; simpl; [reflexivity |].
  rewrite String.eqb_sym. destruct (String.eqb y p); simpl; [discriminate |].
  intros H. now rewrite (IH H).
Qed.

(** A reply in an active state from a neighbor that owes none: after the
    loop event IE8 the removal of the flag raises [ValueError], and the
    entry is left as it was. *)
Theorem unexpected_reply_raises (cm : Metric -> KValues -> Z) (s : State)
    (nb : NeighborId) (nexthop : NextHop) (t : TopologyEntry) :
  s <> Passive ->
  current (fsm t) = s ->
  ~ In nb (reply_wait_set t) ->
  state_handle_reply cm s nb nexthop t
  = (Raise (ValueError "list.remove(x): x not in list"), t).
Proof.
  intros Hs Hc Hnot.
  assert (Hsame : set_current s t = t)
    by (rewrite <- Hc; apply set_current_same).
  assert (Hr : remove_waiting nb t
               = (Raise (ValueError "list.remove(x): x not in list"), t)).
  { unfold remove_waiting.
    destruct (find_neighbor nb (neighbors t)) as [i |] eqn:Hf;
      [| reflexivity].
    destruct (mem (prefix t) (waiting_for_reply i)) eqn:Hm.
    - exfalso. apply Hnot. unfold reply_wait_set.
      rewrite <- (find_neighbor_id _ _ _ Hf). apply in_map.
      apply filter_In. split; [| exact Hm].
      unfold find_neighbor in Hf. now apply find_some in Hf.
    - now rewrite (no_flag_no_remove _ _ Hm). }
  destruct s; [contradiction | ..]; simpl;
    unfold BaseActive_handle_reply, bind, fire;
    rewrite Hc; simpl; rewrite Hsame, Hr; reflexivity.
Qed.

Lemma unexpected_reply_raises_witness :
  Active3 <> Passive
  /\ current (fsm (awaiting_N2 Active3)) = Active3
  /\ ~ In 7 (reply_wait_set (awaiting_N2 Active3))
  /\ state_handle_reply classic_metric Active3 7 0 (awaiting_N2 Active3)
     = (Raise (ValueError "list.remove(x): x not in list"),
        awaiting_N2 Active3).
Proof.
  assert (H : ~ In 7 (reply_wait_set (awaiting_N2 Active3)))
    by (simpl; intuition discriminate).
  split; [discriminate |]. split; [reflexivity |]. split; [exact H |].
  apply (unexpected_reply_raises classic_metric Active3 7 0
           (awaiting_N2 Active3)); [discriminate | reflexivity | exact H].
Defined.

(** A reply in an active state that is not the last one, on a well-formed
    entry: the flag of the neighbor is removed, so the neighbor leaves the
    reply-wait set and nobody else does, and the handler then raises
    [AttributeError] on [self.NO_OP] instead of answering; the machine
    stays in its state. *)
Theorem pending_reply_raises (cm : Metric -> KValues -> Z) (s : State)
    (nb other : NeighborId) (nexthop : NextHop) (t : TopologyEntry) :
  s <> Passive ->
  current (fsm t) = s ->
  well_formed t ->
  In nb (reply_wait_set t) ->
  In other (reply_wait_set t) ->
  other <> nb ->
  exists t',
    state_handle_reply cm s nb nexthop t = (Raise (AttributeError "NO_OP"), t')
    /\ reply_wait_set t'
       = filter (fun x => negb (x =? nb)) (reply_wait_set t)
    /\ current (fsm t') = s
    /\ well_formed t'.
Proof.
  intros Hs Hc Hwf Hin Hother Hneq.
  destruct (remove_waiting_flagged nb t Hwf Hin) as (t1 & Hr & Hset & Hwf1 & Hf).
  assert (Hl : reply_wait_set t1 <> []).
  { intros E. assert (Hx : In other (reply_wait_set t1)).
    { rewrite Hset. apply filter_In. split; [exact Hother |].
      apply negb_true_iff. now apply Z.eqb_neq. }
    rewrite E in Hx. contradiction. }
  exists t1. split; [apply (pending_reply_run cm s nb nexthop t t1 Hs Hc Hr Hl) |].
  split; [exact Hset |]. split; [now rewrite Hf | exact Hwf1].
Qed.

Lemma awaiting_N2_N3_well_formed (s : State) : well_formed (awaiting_N2_N3 s).
Proof.
  split; simpl.
  - repeat (constructor; [simpl; intuition discriminate |]). constructor.
  - repeat constructor; intros w' H; vm_compute in H; injection H as <-;
      reflexivity.
Qed.

Lemma pending_reply_raises_witness :
  Active1 <> Passive
  /\ current (fsm (awaiting_N2_N3 Active1)) = Active1
  /\ well_formed (awaiting_N2_N3 Active1)
  /\ In 3 (reply_wait_set (awaiting_N2_N3 Active1))
  /\ In 2 (reply_wait_set (awaiting_N2_N3 Active1))
  /\ 2 <> 3
  /\ exists t',
       state_handle_reply classic_metric Active1 3 0 (awaiting_N2_N3 Active1)
       = (Raise (AttributeError "NO_OP"), t')
       /\ reply_wait_set t'
          = filter (fun x => negb (x =? 3))
              (reply_wait_set (awaiting_N2_N3 Active1))
       /\ current (fsm t') = Active1
       /\ well_formed t'.
Proof.
  assert (H3 : In 3 (reply_wait_set (awaiting_N2_N3 Active1)))
    by (simpl; auto).
  assert (H2 : In 2 (reply_wait_set (awaiting_N2_N3 Active1)))
    by (simpl; auto).
  split; [discriminate |]. split; [reflexivity |].
  split; [apply awaiting_N2_N3_well_formed |].
  split; [exact H3 |]. split; [exact H2 |]. split; [lia |].
  apply (pending_reply_raises classic_metric Active1 3 2 0
           (awaiting_N2_N3 Active1));
    [discriminate | reflexivity | apply awaiting_N2_N3_well_formed
    | exact H3 | exact H2 | lia].
Defined.

Lemma replies_terminate_witness :
  current (fsm (awaiting_N2_N3 Active3)) = Active3
  /\ well_formed (awaiting_N2_N3 Active3)
  /\ NoDup [3; 2]
  /\ [3; 2] <> []
  /\ (forall x, In x [3; 2] <-> In x (reply_wait_set (awaiting_N2_N3 Active3)))
  /\ current (fsm (deliver_replies classic_metric Active3 [3; 2]
                     (awaiting_N2_N3 Active3))) = Passive
  /\ reply_wait_set (deliver_replies classic_metric Active3 [3; 2]
                       (awaiting_N2_N3 Active3)) = [].
Proof.
  assert (Hnd : NoDup [3; 2])
    by (repeat (constructor; [simpl; intuition discriminate |]); constructor).
  assert (Hsame : forall x, In x [3; 2]
                   <-> In x (reply_wait_set (awaiting_N2_N3 Active3)))
    by (intros x; simpl; intuition).
  split; [reflexivity |].
  split; [apply awaiting_N2_N3_well_formed |].
  split; [exact Hnd |]. split; [discriminate |]. split; [exact Hsame |].
  apply (replies_terminate classic_metric [3; 2]
           (awaiting_N2_N3 Active3) eq_refl
           (awaiting_N2_N3_well_formed Active3) Hnd);
    [discriminate | exact Hsame].
Defined.

(** ** The public methods, call after call *)

Lemma set_current_Passive (t : TopologyEntry) :
  current (fsm t) = Passive -> set_current Passive t = t.
Proof. intros H. rewrite <- H. apply set_current_same. Qed.

(** One public call on an entry whose handler object is the Passive one:
    the entry is left as it was, or its machine goes from Passive to
    Active3 and nothing else changes; no list is handed back. *)
Lemma deliver_step (cm : Metric -> KValues -> Z) (ev : api_event)
    (t : TopologyEntry) :
  _state (fsm t) = Passive ->
  (snd (deliver cm ev t) = t
   \/ (current (fsm t) = Passive
       /\ snd (deliver cm ev t) = set_current Active3 t))
  /\ (forall l, fst (deliver cm ev t) <> Ret (RList l)).
Proof.
  intros H. destruct ev as [nb nh m | nb nh m | nb nh | l | l]; simpl.
  - unfold DualFsm_handle_update, bind, gets. rewrite H. simpl.
    rewrite StatePassive_handle_update_raises. simpl.
    split; [now left | discriminate].
  - unfold DualFsm_handle_query, bind, gets. rewrite H. simpl.
    unfold StatePassive_handle_query, bind, get_feasible_successor, gets,
      fire, unbound_name, raise, ret.
    destruct (match successor t with
              | Some s => s =? nb
              | None => false
              end).
    + destruct (feasible_successor_of cm t);
        [simpl; split; [now left | discriminate] |].
      destruct (current (fsm t)) eqn:Hc; simpl;
        (split; [auto | discriminate]).
    + destruct (current (fsm t)) eqn:Hc; simpl;
        (split; [| discriminate]); try now left.
      left. now apply set_current_Passive.
  - unfold DualFsm_handle_reply, bind, gets. rewrite H. simpl.
    split; [now left | discriminate].
  - unfold DualFsm_handle_link_down, bind, gets. rewrite H. simpl.
    split; [now left | discriminate].
  - unfold DualFsm_handle_link_metric_change, bind, gets. rewrite H. simpl.
    split; [now left | discriminate].
Qed.

Lemma run_shape (cm : Metric -> KValues -> Z) (evs : list api_event) :
  forall t,
    _state (fsm t) = Passive ->
    run cm evs t = t
    \/ (current (fsm t) = Passive /\ run cm evs t = set_current Active3 t).
Proof.
  induction evs as [| ev evs IH]; intros t H; [now left |].
  unfold run. simpl. fold (run cm evs (snd (deliver cm ev t))).
  destruct (deliver_step cm ev t H) as [[E | [Hc E]] _]; rewrite E.
  - apply IH. exact H.
  - right. split; [exact Hc |].
    destruct (IH (set_current Active3 t) H) as [E' | [Hc' _]];
      [exact E' | discriminate Hc'].
Qed.

(** Through the public methods, starting from a fresh [DualFsm]: whatever
    the events, the entry afterwards is the entry before, except that the
    machine may be in Active3. No neighbor record, no reply flag, no
    successor and no feasible distance is ever written, and the handler
    object stays the Passive one. *)
Theorem public_run_entry (cm : Metric -> KValues -> Z)
    (evs : list api_event) (t : TopologyEntry) :
  fsm t = DualFsm_init ->
  run cm evs t = t \/ run cm evs t = set_current Active3 t.
Proof.
  intros H.
  assert (Hs : _state (fsm t) = Passive) by now rewrite H.
  destruct (run_shape cm evs t Hs) as [E | [_ E]]; auto.
Qed.

Lemma public_run_entry_witness :
  fsm scenario_B = DualFsm_init
  /\ (run classic_metric
        [UpdateEvent 1 0 unreachable_metric; QueryEvent 1 0 (metric_of 10);
         ReplyEvent 2 0; ReplyEvent 1 0; LinkDownEvent 1] scenario_B
      = scenario_B
      \/ run classic_metric
           [UpdateEvent 1 0 unreachable_metric; QueryEvent 1 0 (metric_of 10);
            ReplyEvent 2 0; ReplyEvent 1 0; LinkDownEvent 1] scenario_B
         = set_current Active3 scenario_B).
Proof.
  split; [reflexivity |].
  apply (public_run_entry classic_metric
           [UpdateEvent 1 0 unreachable_metric; QueryEvent 1 0 (metric_of 10);
            ReplyEvent 2 0; ReplyEvent 1 0; LinkDownEvent 1] scenario_B).
  reflexivity.
Defined.

(** Once the public methods have led the machine into Active3 it stays
    there: with the Passive handler object no later event changes the
    entry, so the machine never comes back to Passive. *)
Theorem public_run_stuck_in_Active3 (cm : Metric -> KValues -> Z)
    (evs : list api_event) (t : TopologyEntry) :
  _state (fsm t) = Passive ->
  current (fsm t) = Active3 ->
  run cm evs t = t.
Proof.
  intros Hs Hc.
  destruct (run_shape cm evs t Hs) as [E | [Hc' _]]; [exact E |].
  rewrite Hc in Hc'. discriminate Hc'.
Qed.

Lemma public_run_stuck_in_Active3_witness :
  _state (fsm (set_current Active3 scenario_B)) = Passive
  /\ current (fsm (set_current Active3 scenario_B)) = Active3
  /\ run classic_metric
       [ReplyEvent 2 0; ReplyEvent 1 0; QueryEvent 2 0 (metric_of 50)]
       (set_current Active3 scenario_B)
     = set_current Active3 scenario_B.
Proof.
  split; [reflexivity |]. split; [reflexivity |].
  apply (public_run_stuck_in_Active3 classic_metric
           [ReplyEvent 2 0; ReplyEvent 1 0; QueryEvent 2 0 (metric_of 50)]
           (set_current Active3 scenario_B)); reflexivity.
Defined.

Lemma run_keeps_object (cm : Metric -> KValues -> Z) (evs : list api_event)
    (t : TopologyEntry) :
  _state (fsm t) = Passive -> _state (fsm (run cm evs t)) = Passive.
Proof.
  intros H. destruct (run_shape cm evs t H) as [E | [_ E]]; rewrite E;
    exact H.
Qed.

(** Through the public methods, starting with the Passive handler object,
    no call ever hands an action list to its caller: each one returns
    [None] or raises. *)
Theorem public_never_returns_actions (cm : Metric -> KValues -> Z)
    (evs : list api_event) (ev : api_event) (t : TopologyEntry)
    (l : list pyval) :
  _state (fsm t) = Passive ->
  fst (deliver cm ev (run cm evs t)) <> Ret (RList l).
Proof.
  intros H.
  apply (deliver_step cm ev (run cm evs t) (run_keeps_object cm evs t H)).
Qed.

Lemma public_never_returns_actions_witness :
  _state (fsm scenario_A) = Passive
  /\ fst (deliver classic_metric (UpdateEvent 1 0 (metric_of 10))
            (run classic_metric [ReplyEvent 1 0] scenario_A))
     <> Ret (RList [PyInt INSTALL_SUCCESSOR; PyNeighbor 1]).
Proof.
  split; [reflexivity |].
  apply (public_never_returns_actions classic_metric [ReplyEvent 1 0]
           (UpdateEvent 1 0 (metric_of 10)) scenario_A
           [PyInt INSTALL_SUCCESSOR; PyNeighbor 1]).
  reflexivity.
Defined.

(** The public [handle_update], with the Passive handler object: every
    call raises [NameError], on [tlv] when the neighbor has a record and on
    [eigrp] when it has none, and leaves the entry as it was; no record is
    created or updated and neither IE2 nor IE4 is ever called. *)
Theorem public_update_always_raises (cm : Metric -> KValues -> Z)
    (nb : NeighborId) (nexthop : NextHop) (metric : Metric)
    (t : TopologyEntry) :
  _state (fsm t) = Passive ->
  DualFsm_handle_update cm nb nexthop metric t =
    (Raise (NameError (match find_neighbor nb (neighbors t) with
                       | Some _ => "tlv"
                       | None => "eigrp"
                       end)), t).
Proof.
  intros H. unfold DualFsm_handle_update, bind, gets. rewrite H. simpl.
  apply StatePassive_handle_update_raises.
Qed.

Lemma public_update_always_raises_witness :
  _state (fsm scenario_C) = Passive
  /\ DualFsm_handle_update classic_metric 2 0 (metric_of 3) scenario_C =
       (Raise (NameError (match find_neighbor 2 (neighbors scenario_C) with
                          | Some _ => "tlv"
                          | None => "eigrp"
                          end)), scenario_C).
Proof.
  split; [reflexivity |].
  apply (public_update_always_raises classic_metric 2 0 (metric_of 3)
           scenario_C).
  reflexivity.
Defined.

(** ** The checksum of a packet *)

Lemma land_65535 (c : Z) : Z.land c 65535 = c mod 65536.
Proof. change 65535 with (Z.ones 16). now rewrite Z.land_ones by lia. Qed.

Lemma shiftr_16 (c : Z) : Z.shiftr c 16 = c / 65536.
Proof. now rewrite Z.shiftr_div_pow2 by lia. Qed.

Lemma carry_around_add_cases (a b : Z) :
  is_u16 a -> is_u16 b ->
  carry_around_add a b = if a + b <? 65536 then a + b else a + b - 65535.
Proof.
  unfold is_u16, carry_around_add. intros Ha Hb. cbv zeta.
  rewrite land_65535, shiftr_16.
  pose proof (Z.div_mod (a + b) 65536 ltac:(lia)) as Hdm.
  pose proof (Z.mod_pos_bound (a + b) 65536 ltac:(lia)) as Hr.
  assert (Hq : 0 <= (a + b) / 65536 <= 1).
  { split; [apply Z.div_pos; lia |].
    apply Z.lt_succ_r. apply Z.div_lt_upper_bound; lia. }
  destruct (Z.ltb_spec (a + b) 65536); lia.
Qed.

Lemma carry_around_add_bounds (a b : Z) :
  is_u16 a -> is_u16 b ->
  is_u16 (carry_around_add a b)
  /\ carry_around_add a b mod 65535 = (a + b) mod 65535.
Proof.
  intros Ha Hb. rewrite (carry_around_add_cases a b Ha Hb).
  unfold is_u16 in *.
  destruct (Z.ltb_spec (a + b) 65536); (split; [lia |]); [reflexivity |].
  replace (a + b) with (a + b - 65535 + 1 * 65535) at 2 by lia.
  now rewrite Z.mod_add by lia.
Qed.

(** [carry_around_add] on two 16-bit values adds them and, when the sum
    does not fit 16 bits, takes the carry out and adds it back in: the
    result is again a 16-bit value, equal to the sum modulo 65535, and the
    order of the operands does not matter. *)
Theorem carry_around_add_sum (a b : Z) :
  is_u16 a -> is_u16 b ->
  carry_around_add a b = (if a + b <? 65536 then a + b else a + b - 65535)
  /\ is_u16 (carry_around_add a b)
  /\ carry_around_add a b mod 65535 = (a + b) mod 65535
  /\ carry_around_add a b = carry_around_add b a.
Proof.
  intros Ha Hb.
  split; [apply carry_around_add_cases; assumption |].
  split; [apply carry_around_add_bounds; assumption |].
  split; [apply carry_around_add_bounds; assumption |].
  rewrite (carry_around_add_cases a b Ha Hb),
    (carry_around_add_cases b a Hb Ha).
  now rewrite (Z.add_comm b a).
Qed.

Lemma carry_around_add_sum_witness :
  is_u16 65535 /\ is_u16 2
  /\ (carry_around_add 65535 2
        = (if 65535 + 2 <? 65536 then 65535 + 2 else 65535 + 2 - 65535)
      /\ is_u16 (carry_around_add 65535 2)
      /\ carry_around_add 65535 2 mod 65535 = (65535 + 2) mod 65535
      /\ carry_around_add 65535 2 = carry_around_add 2 65535).
Proof.
  assert (H1 : is_u16 65535) by (unfold is_u16; lia).
  assert (H2 : is_u16 2) by (unfold is_u16; lia).
  split; [exact H1 |]. split; [exact H2 |].
  apply (carry_around_add_sum 65535 2 H1 H2).
Defined.

Lemma pairs_ind (P : bytes -> Prop) :
  P [] -> (forall x, P [x]) ->
  (forall x y l, P l -> P (x :: y :: l)) ->
  forall l, P l.
Proof.
  intros H0 H1 H2 l.
  assert (H : P l /\ forall x, P (x :: l)).
  { induction l as [| a l [IH1 IH2]]; [split; [exact H0 | exact H1] |].
    split; [apply IH2 |]. intros x. now apply H2. }
  apply H.
Qed.

Lemma word_u16 (b0 b1 : Z) :
  is_byte b0 -> is_byte b1 -> is_u16 (b0 + Z.shiftl b1 8).
Proof.
  unfold is_byte, is_u16. intros H0 H1.
  rewrite Z.shiftl_mul_pow2 by lia. change (2 ^ 8) with 256. lia.
Qed.

(** The loop of the checksum over a string of bytes. *)
Lemma sum_words_spec (data : bytes) :
  Forall is_byte data ->
  forall s, is_u16 s ->
    if Nat.even (List.length data)
    then exists s', sum_words data s = Ok s' /\ is_u16 s'
                    /\ s' mod 65535 = (s + words_total data) mod 65535
    else sum_words data s = Err IndexError.
Proof.
  induction data as [| x | x y l IH] using pairs_ind; intros Hb s Hs.
  - simpl. exists s. repeat split; try apply Hs. now rewrite Z.add_0_r.
  - reflexivity.
  - inversion Hb as [| ? ? Hx Hb']; subst.
    inversion Hb' as [| ? ? Hy Hl]; subst.
    destruct (carry_around_add_bounds s (x + Z.shiftl y 8) Hs (word_u16 x y Hx Hy))
      as [Hr Hm].
    specialize (IH Hl _ Hr).
    change (Nat.even (List.length (x :: y :: l)))
      with (Nat.even (List.length l)).
    destruct (Nat.even (List.length l)).
    + destruct IH as (s' & E & Hs' & Hmod). exists s'.
      split; [exact E |]. split; [exact Hs' |].
      rewrite Hmod. cbn [words_total].
      rewrite Z.add_mod, Hm, <- Z.add_mod by lia. f_equal. lia.
    + exact IH.
Qed.

Lemma land_lnot_65535 (s : Z) :
  is_u16 s -> Z.land (Z.lnot s) 65535 = 65535 - s.
Proof.
  unfold is_u16. intros Hs. rewrite land_65535. unfold Z.lnot.
  symmetry. apply (Z.mod_unique _ _ (-1)); lia.
Qed.

(** The checksum of a byte string of even length is a 16-bit value that
    brings the sum of the words of the string, read low byte first, to a
    multiple of 65535; a string of odd length makes [calc_chksum] raise
    [IndexError]. *)
Theorem calc_chksum_spec (prehdr fields : bytes) :
  Forall is_byte (prehdr ++ fields) ->
  if Nat.even (List.length (prehdr ++ fields))
  then exists c, calc_chksum prehdr fields = Ok c /\ is_u16 c
                 /\ (words_total (prehdr ++ fields) + c) mod 65535 = 0
  else calc_chksum prehdr fields = Err IndexError.
Proof.
  intros Hb. unfold calc_chksum.
  assert (H0 : is_u16 0) by (unfold is_u16; lia).
  pose proof (sum_words_spec (prehdr ++ fields) Hb 0 H0) as H.
  destruct (Nat.even (List.length (prehdr ++ fields))).
  - destruct H as (s & E & Hs & Hm). rewrite E. simpl.
    rewrite (land_lnot_65535 s Hs). exists (65535 - s).
    split; [reflexivity |]. split; [unfold is_u16 in *; lia |].
    simpl in Hm.
    replace (words_total (prehdr ++ fields) + (65535 - s))
      with (words_total (prehdr ++ fields) - s + 1 * 65535) by lia.
    rewrite Z.mod_add by lia.
    rewrite Zminus_mod, <- Hm, Z.sub_diag. reflexivity.
  - now rewrite H.
Qed.

Lemma calc_chksum_spec_witness :
  Forall is_byte ([2; 5] ++ [0; 12])
  /\ (if Nat.even (List.length ([2; 5] ++ [0; 12]))
      then exists c, calc_chksum [2; 5] [0; 12] = Ok c /\ is_u16 c
                     /\ (words_total ([2; 5] ++ [0; 12]) + c) mod 65535 = 0
      else calc_chksum [2; 5] [0; 12] = Err IndexError).
Proof.
  assert (H : Forall is_byte ([2; 5] ++ [0; 12]))
    by (repeat constructor; unfold is_byte; lia).
  split; [exact H |].
  apply (calc_chksum_spec [2; 5] [0; 12] H).
Defined.

(** ** The RTP header *)

Lemma land_255_byte (x : Z) : is_byte (Z.land x 255).
Proof.
  assert (E : Z.land x 255 = x mod 256)
    by (change 255 with (Z.ones 8); now rewrite Z.land_ones by lia).
  unfold is_byte. rewrite E.
  pose proof (Z.mod_pos_bound x 256 ltac:(lia)). lia.
Qed.

Lemma shiftr_8_byte (v : Z) : is_u16 v -> is_byte (Z.shiftr v 8).
Proof.
  unfold is_u16, is_byte. intros H. rewrite Z.shiftr_div_pow2 by lia.
  change (2 ^ 8) with 256.
  split; [apply Z.div_pos; lia |].
  apply Z.lt_succ_r. apply Z.div_lt_upper_bound; lia.
Qed.

Lemma shiftr_24_byte (v : Z) : is_u32 v -> is_byte (Z.shiftr v 24).
Proof.
  unfold is_u32, is_byte. intros H. rewrite Z.shiftr_div_pow2 by lia.
  change (2 ^ 24) with 16777216.
  split; [apply Z.div_pos; lia |].
  apply Z.lt_succ_r. apply Z.div_lt_upper_bound; lia.
Qed.

Lemma pack_I_be_ok (v : Z) :
  is_u32 v ->
  pack_I_be v = Ret [Z.shiftr v 24; Z.land (Z.shiftr v 16) 255;
                     Z.land (Z.shiftr v 8) 255; Z.land v 255].
Proof.
  intros [H1 H2]. unfold pack_I_be.
  apply Z.leb_le in H1. apply Z.leb_le in H2. now rewrite H1, H2.
Qed.

Lemma join_split_H_be (v : Z) :
  join_H_be (Z.shiftr v 8) (Z.land v 255) = v.
Proof. apply join_split_be. Qed.

(** The four bytes of a big-endian ['I'], read in the same order, give the
    value back. *)
Lemma join_split_I_be (v : Z) :
  join_I_be (Z.shiftr v 24) (Z.land (Z.shiftr v 16) 255)
    (Z.land (Z.shiftr v 8) 255) (Z.land v 255) = v.
Proof.
  unfold join_I_be.
  assert (E1 : v = Z.lor (Z.shiftl (Z.shiftr v 8) 8) (Z.land v 255))
    by (symmetry; apply join_split_be).
  assert (E2 : Z.shiftr v 8
               = Z.lor (Z.shiftl (Z.shiftr v 16) 8)
                   (Z.land (Z.shiftr v 8) 255)).
  { rewrite <- (join_split_be (Z.shiftr v 8)) at 1.
    now rewrite Z.shiftr_shiftr by lia. }
  assert (E3 : Z.shiftr v 16
               = Z.lor (Z.shiftl (Z.shiftr v 24) 8)
                   (Z.land (Z.shiftr v 16) 255)).
  { rewrite <- (join_split_be (Z.shiftr v 16)) at 1.
    now rewrite Z.shiftr_shiftr by lia. }
  set (A := Z.shiftr v 24) in *.
  set (B := Z.land (Z.shiftr v 16) 255) in *.
  set (C := Z.land (Z.shiftr v 8) 255) in *.
  set (D := Z.land v 255) in *.
  rewrite E1 at 1. rewrite E2, E3.
  rewrite !Z.shiftl_lor, !Z.shiftl_shiftl by lia. simpl Z.add.
  now rewrite !Z.lor_assoc.
Qed.

(** The twenty bytes [RTPHeader2.pack] writes for fields in range. *)
Lemma RTPHeader2_pack_bytes (h : RTPHeader2) :
  is_byte (VER h) -> is_byte (opcode h) -> is_u16 (chksum h) ->
  is_u32 (flags h) -> is_u32 (seq h) -> is_u32 (ack h) ->
  is_u16 (rid h) -> is_u16 (asn h) ->
  RTPHeader2_pack h =
    Ret [VER h; opcode h; Z.shiftr (chksum h) 8; Z.land (chksum h) 255;
         Z.shiftr (flags h) 24; Z.land (Z.shiftr (flags h) 16) 255;
         Z.land (Z.shiftr (flags h) 8) 255; Z.land (flags h) 255;
         Z.shiftr (seq h) 24; Z.land (Z.shiftr (seq h) 16) 255;
         Z.land (Z.shiftr (seq h) 8) 255; Z.land (seq h) 255;
         Z.shiftr (ack h) 24; Z.land (Z.shiftr (ack h) 16) 255;
         Z.land (Z.shiftr (ack h) 8) 255; Z.land (ack h) 255;
         Z.shiftr (rid h) 8; Z.land (rid h) 255;
         Z.shiftr (asn h) 8; Z.land (asn h) 255].
Proof.
  intros Hv Ho Hc Hf Hs Ha Hr Hn. unfold RTPHeader2_pack. cbn [pack_Bs].
  rewrite (pack_B_ok _ Hv), (pack_B_ok _ Ho), (pack_H_be_ok _ Hc),
    (pack_I_be_ok _ Hf), (pack_I_be_ok _ Hs), (pack_I_be_ok _ Ha),
    (pack_H_be_ok _ Hr), (pack_H_be_ok _ Hn).
  reflexivity.
Qed.

(** Round trip of the header: a header whose fields fit their formats
    packs to twenty bytes, and [RTPHeader2(raw)] on those bytes is a header
    with the same version, opcode, checksum, flags, sequence and
    acknowledgement numbers, router id and AS number. *)
Theorem RTPHeader2_roundtrip (h : RTPHeader2) :
  is_byte (VER h) -> is_byte (opcode h) -> is_u16 (chksum h) ->
  is_u32 (flags h) -> is_u32 (seq h) -> is_u32 (ack h) ->
  is_u16 (rid h) -> is_u16 (asn h) ->
  exists raw,
    RTPHeader2_pack h = Ret raw
    /\ List.length raw = 20%nat
    /\ Forall is_byte raw
    /\ RTPHeader2_init (Some raw) None None None None None None = Ret h.
Proof.
  intros Hv Ho Hc Hf Hs Ha Hr Hn.
  eexists. split; [apply RTPHeader2_pack_bytes; assumption |].
  split; [reflexivity |]. split.
  - repeat (constructor;
            [first [ assumption | apply land_255_byte
                   | apply shiftr_8_byte; assumption
                   | apply shiftr_24_byte; assumption ] |]).
    constructor.
  - cbn [RTPHeader2_init RTPHeader2_unpack].
    rewrite !join_split_I_be, !join_split_H_be. now destruct h.
Qed.

Lemma RTPHeader2_roundtrip_witness :
  let h := {| VER := 2; opcode := 5; chksum := 51966; flags := 1;
              seq := 305419896; ack := 7; rid := 258; asn := 65535 |} in
  is_byte (VER h) /\ is_byte (opcode h) /\ is_u16 (chksum h)
  /\ is_u32 (flags h) /\ is_u32 (seq h) /\ is_u32 (ack h)
  /\ is_u16 (rid h) /\ is_u16 (asn h)
  /\ exists raw,
       RTPHeader2_pack h = Ret raw
       /\ List.length raw = 20%nat
       /\ Forall is_byte raw
       /\ RTPHeader2_init (Some raw) None None None None None None = Ret h.
Proof.
  intros h.
  assert (H1 : is_byte (VER h)) by (unfold is_byte; simpl; lia).
  assert (H2 : is_byte (opcode h)) by (unfold is_byte; simpl; lia).
  assert (H3 : is_u16 (chksum h)) by (unfold is_u16; simpl; lia).
  assert (H4 : is_u32 (flags h)) by (unfold is_u32; simpl; lia).
  assert (H5 : is_u32 (seq h)) by (unfold is_u32; simpl; lia).
  assert (H6 : is_u32 (ack h)) by (unfold is_u32; simpl; lia).
  assert (H7 : is_u16 (rid h)) by (unfold is_u16; simpl; lia).
  assert (H8 : is_u16 (asn h)) by (unfold is_u16; simpl; lia).
  repeat (split; [assumption |]).
  apply (RTPHeader2_roundtrip h H1 H2 H3 H4 H5 H6 H7 H8).
Defined.

(** ** Constructing the instance and its hello packet *)

(** What a successful run of the checks of [EIGRP.__init__] tells. *)
Lemma EIGRP_init_inversion (r a : Z) (kv : kvalues_arg) (hi hv : Z)
    (e : EIGRP) :
  EIGRP_init r a kv hi hv = Ret e ->
  0 <= r < 65536 /\ 0 <= a < 65536 /\ 1 <= hi <= 21845
  /\ (exists l, kv = KList l /\ List.length l = 6%nat /\ Forall is_byte l)
  /\ hv = 2
  /\ e = {| _rid := r; _asn := a; _hello_interval := hi;
            _instance_holdtime := hi * 3; _kvalues := kv |}.
Proof.
  unfold EIGRP_init, DEFAULT_HT_MULTIPLIER.
  change (65535 / 3) with 21845.
  destruct ((0 <=? r) && (r <? 65536)) eqn:Er; [| discriminate].
  destruct ((0 <=? a) && (a <? 65536)) eqn:Ea; [| discriminate].
  destruct ((1 <=? hi) && (hi <=? 21845)) eqn:Eh; [| discriminate].
  cbn [negb].
  destruct (check_kvalues kv) as [kv' | x] eqn:Ek; [| discriminate].
  cbn [and_then].
  destruct (hv =? 2) eqn:Ev; [| discriminate].
  intros H. injection H as <-.
  apply check_kvalues_accepts in Ek as (-> & Hl).
  apply andb_true_iff in Er as [Er1 Er2].
  apply andb_true_iff in Ea as [Ea1 Ea2].
  apply andb_true_iff in Eh as [Eh1 Eh2].
  apply Z.leb_le in Er1, Ea1, Eh1, Eh2. apply Z.ltb_lt in Er2, Ea2.
  apply Z.eqb_eq in Ev.
  repeat split; auto.
Qed.

(** The argument checks of [EIGRP.__init__] pass exactly for a router id
    and an AS number below 65536, a hello interval between 1 and 21845, a
    list of exactly six K-values between 0 and 255 (the default [None] is
    refused) and header version 2; the holdtime stored is three times the
    hello interval. *)
Theorem EIGRP_init_accepts (r a : Z) (kv : kvalues_arg) (hi hv : Z)
    (e : EIGRP) :
  EIGRP_init r a kv hi hv = Ret e
  <-> (0 <= r < 65536 /\ 0 <= a < 65536 /\ 1 <= hi <= 21845
       /\ (exists l, kv = KList l /\ List.length l = 6%nat
                     /\ Forall is_byte l)
       /\ hv = 2
       /\ e = {| _rid := r; _asn := a; _hello_interval := hi;
                 _instance_holdtime := hi * 3; _kvalues := kv |}).
Proof.
  split; [apply EIGRP_init_inversion |].
  intros ([Hr1 Hr2] & [Ha1 Ha2] & [Hh1 Hh2] & Hl & -> & ->).
  unfold EIGRP_init, DEFAULT_HT_MULTIPLIER.
  change (65535 / 3) with 21845.
  apply Z.leb_le in Hr1, Ha1, Hh1, Hh2. apply Z.ltb_lt in Hr2, Ha2.
  rewrite Hr1, Hr2, Ha1, Ha2, Hh1, Hh2. cbn [andb negb].
  assert (Ek : check_kvalues kv = Ret kv)
    by (apply check_kvalues_accepts; split; [reflexivity | exact Hl]).
  rewrite Ek. reflexivity.
Qed.

Lemma skipn_20_app (a b : bytes) :
  List.length a = 20%nat -> skipn 20 (a ++ b) = b.
Proof.
  intros H. do 21 (destruct a as [| ? a]; try discriminate H). reflexivity.
Qed.

Lemma firstn_20_app (a b : bytes) :
  List.length a = 20%nat -> firstn 20 (a ++ b) = a.
Proof.
  intros H. do 21 (destruct a as [| ? a]; try discriminate H). reflexivity.
Qed.

(** The hello packet of an accepted configuration: [_build_hello_pkt]
    raises nothing and gives 32 bytes; the first twenty parse as a header
    of version 2 and opcode HELLO with the router id and the AS number of
    the instance, zero flags, sequence and acknowledgement numbers, and the
    checksum [calc_chksum] gives for the packet with a zero checksum; the
    other twelve are the parameter TLV, which on a big-endian host parses
    to the six K-values and to the holdtime, three times the hello
    interval. *)
Theorem hello_pkt_of_accepted (r a : Z) (kv : kvalues_arg) (hi hv : Z)
    (e : EIGRP) :
  EIGRP_init r a kv hi hv = Ret e ->
  exists pkt hdr f,
    build_hello_pkt e = Ok pkt
    /\ List.length pkt = 32%nat
    /\ Forall is_byte pkt
    /\ RTPHeader2_init (Some (firstn 20 pkt)) None None None None None None
       = Ret hdr
    /\ VER hdr = 2 /\ opcode hdr = OPC_HELLO
    /\ rid hdr = r /\ asn hdr = a
    /\ flags hdr = 0 /\ seq hdr = 0 /\ ack hdr = 0
    /\ (exists prehdr, RTPHeader2_pack (set_chksum 0 hdr) = Ret prehdr
          /\ calc_chksum prehdr (skipn 20 pkt) = Ok (chksum hdr))
    /\ build big (skipn 20 pkt) = Ret f
    /\ kv = KList [_k1 f; _k2 f; _k3 f; _k4 f; _k5 f; _k6 f]
    /\ _holdtime f = hi * 3.
Proof.
  intros H.
  apply EIGRP_init_inversion in H
    as ([Hr1 Hr2] & [Ha1 Ha2] & [Hh1 Hh2] & (l & -> & Hlen & Hb) & _ & ->).
  do 7 (destruct l as [| ? l]; try discriminate Hlen). clear Hlen.
  repeat match goal with
         | Hf : Forall _ (_ :: _) |- _ =>
             let Hx := fresh "B" in
             apply Forall_cons_iff in Hf as [Hx Hf]
         end.
  assert (Hht : is_u16 (hi * 3)) by (unfold is_u16; lia).
  assert (Hnz : (hi * 3 =? 0) = false) by (apply Z.eqb_neq; lia).
  assert (Hr : is_u16 r) by (unfold is_u16; lia).
  assert (Ha : is_u16 a) by (unfold is_u16; lia).
  set (h0 := {| VER := 2; opcode := OPC_HELLO; chksum := 0; flags := 0;
                seq := 0; ack := 0; rid := r; asn := a |}).
  set (fs := [0; 1; 0; 12; z; z0; z1; z2; z3; z4;
              Z.shiftr (hi * 3) 8; Z.land (hi * 3) 255]).
  assert (Hfs : Forall is_byte fs).
  { unfold fs. repeat (constructor;
      [first [ assumption | apply land_255_byte
             | apply shiftr_8_byte; assumption
             | unfold is_byte; lia ] |]).
    constructor. }
  assert (Hfield : exists fld,
             EIGRPFieldParam_of_values z z0 z1 z2 z3 z4 (hi * 3) = Ret fld
             /\ pack fld = Ret fs).
  { unfold EIGRPFieldParam_of_values. rewrite Hnz. cbn [negb].
    eexists. split; [reflexivity |].
    apply (pack_bytes z z0 z1 z2 z3 z4 (hi * 3)); try assumption.
    unfold EIGRPFieldParam_of_values. now rewrite Hnz. }
  destruct Hfield as (fld & Efld & Epack).
  assert (Hpre : forall c, is_u16 c ->
             RTPHeader2_pack (set_chksum c h0)
             = Ret [2; 5; Z.shiftr c 8; Z.land c 255;
                    0; 0; 0; 0; 0; 0; 0; 0; 0; 0; 0; 0;
                    Z.shiftr r 8; Z.land r 255; Z.shiftr a 8; Z.land a 255]).
  { intros c Hc.
    rewrite RTPHeader2_pack_bytes; simpl; try assumption; try reflexivity;
      unfold is_byte, is_u32, OPC_HELLO; lia. }
  assert (H0 : is_u16 0) by (unfold is_u16; lia).
  set (prehdr := [2; 5; Z.shiftr 0 8; Z.land 0 255;
                  0; 0; 0; 0; 0; 0; 0; 0; 0; 0; 0; 0;
                  Z.shiftr r 8; Z.land r 255; Z.shiftr a 8; Z.land a 255]).
  assert (Hpb : Forall is_byte (prehdr ++ fs)).
  { apply Forall_app. split; [| exact Hfs].
    unfold prehdr. repeat (constructor;
      [first [ apply land_255_byte | apply shiftr_8_byte; assumption
             | unfold is_byte; simpl; lia ] |]).
    constructor. }
  pose proof (sum_words_spec (prehdr ++ fs) Hpb 0 H0) as Hck.
  change (Nat.even (List.length (prehdr ++ fs))) with true in Hck.
  destruct Hck as (s & Es & Hs & _).
  assert (Hc : is_u16 (65535 - s)) by (unfold is_u16 in *; lia).
  assert (Ec : calc_chksum prehdr fs = Ok (65535 - s)).
  { unfold calc_chksum. rewrite Es. cbn [result_bind].
    now rewrite (land_lnot_65535 s Hs). }
  set (c := 65535 - s) in *.
  set (pkt := [2; 5; Z.shiftr c 8; Z.land c 255;
               0; 0; 0; 0; 0; 0; 0; 0; 0; 0; 0; 0;
               Z.shiftr r 8; Z.land r 255; Z.shiftr a 8; Z.land a 255]
              ++ fs).
  exists pkt, (set_chksum c h0).
  eexists.
  split.
  { unfold build_hello_pkt, RTPHeader2_init, no_raw.
    cbn [lift result_bind _rid _asn _kvalues _instance_holdtime kvalue_at
         nth_error].
    rewrite Efld. cbn [lift result_bind].
    unfold RTPPacket_pack. fold h0.
    assert (Eh0 : set_chksum 0 h0 = h0) by reflexivity.
    rewrite Eh0.
    replace h0 with (set_chksum 0 h0) at 1 by reflexivity.
    rewrite (Hpre 0 H0). cbn [lift result_bind].
    rewrite Epack. cbn [lift result_bind].
    fold prehdr. rewrite Ec. cbn [result_bind].
    rewrite (Hpre c Hc). reflexivity. }
  split; [reflexivity |].
  split.
  { unfold pkt. apply Forall_app. split; [| exact Hfs].
    repeat (constructor;
      [first [ apply land_255_byte | apply shiftr_8_byte; assumption
             | unfold is_byte; simpl; lia ] |]).
    constructor. }
  split.
  { unfold pkt. rewrite firstn_20_app by reflexivity.
    cbn [RTPHeader2_init RTPHeader2_unpack].
    rewrite !join_split_H_be. reflexivity. }
  repeat (split; [reflexivity |]).
  split.
  { exists prehdr. split.
    - replace (set_chksum 0 (set_chksum c h0)) with (set_chksum 0 h0)
        by reflexivity.
      apply (Hpre 0 H0).
    - unfold pkt. rewrite skipn_20_app by reflexivity. exact Ec. }
  unfold pkt. rewrite skipn_20_app by reflexivity.
  split; [reflexivity |].
  split; [reflexivity |].
  cbn [_holdtime]. apply join_split_be.
Qed.

Lemma hello_pkt_of_accepted_witness :
  EIGRP_init 1 1 (KList [1; 74; 1; 0; 0; 0]) 5 2
    = Ret {| _rid := 1; _asn := 1; _hello_interval := 5;
             _instance_holdtime := 15;
             _kvalues := KList [1; 74; 1; 0; 0; 0] |}
  /\ exists pkt hdr f,
       build_hello_pkt {| _rid := 1; _asn := 1; _hello_interval := 5;
                          _instance_holdtime := 15;
                          _kvalues := KList [1; 74; 1; 0; 0; 0] |} = Ok pkt
       /\ List.length pkt = 32%nat
       /\ Forall is_byte pkt
       /\ RTPHeader2_init (Some (firstn 20 pkt)) None None None None None None
          = Ret hdr
       /\ VER hdr = 2 /\ opcode hdr = OPC_HELLO
       /\ rid hdr = 1 /\ asn hdr = 1
       /\ flags hdr = 0 /\ seq hdr = 0 /\ ack hdr = 0
       /\ (exists prehdr, RTPHeader2_pack (set_chksum 0 hdr) = Ret prehdr
             /\ calc_chksum prehdr (skipn 20 pkt) = Ok (chksum hdr))
       /\ build big (skipn 20 pkt) = Ret f
       /\ KList [1; 74; 1; 0; 0; 0]
          = KList [_k1 f; _k2 f; _k3 f; _k4 f; _k5 f; _k6 f]
       /\ _holdtime f = 5 * 3.
Proof.
  split; [reflexivity |].
  apply (hello_pkt_of_accepted 1 1 (KList [1; 74; 1; 0; 0; 0]) 5 2).
  reflexivity.
Defined.

(** ** Parsing a TLV *)

(** [EIGRPFieldFactory.build] returns a field exactly for a string of
    twelve bytes whose second byte is the parameter type 1: the six bytes
    after the base header are the K-values and the last two the holdtime in
    the byte order of the host. The protocol byte and the length field of
    the base header are not looked at. *)
Theorem build_accepts (host : byteorder) (raw : bytes) (f : EIGRPFieldParam) :
  build host raw = Ret f
  <-> exists proto l1 l0 b0 b1 b2 b3 b4 b5 b6 b7,
        raw = [proto; 1; l1; l0; b0; b1; b2; b3; b4; b5; b6; b7]
        /\ f = {| _proto := PROTO_GENERIC; _type := None; _len := None;
                  _k1 := b0; _k2 := b1; _k3 := b2; _k4 := b3; _k5 := b4;
                  _k6 := b5;
                  _holdtime := match host with
                               | little => Z.lor b6 (Z.shiftl b7 8)
                               | big => Z.lor (Z.shiftl b6 8) b7
                               end |}.
Proof.
  split.
  - unfold build.
    destruct raw as [| proto [| ty [| l1 [| l0 rest]]]];
      try discriminate.
    cbn [firstn skipn]. unfold TYPE.
    destruct (ty =? 1) eqn:Et; [| discriminate].
    apply Z.eqb_eq in Et. subst ty.
    do 9 (destruct rest as [| ? rest]; try discriminate).
    cbn [EIGRPFieldParam_of_raw unpack and_then].
    intros H. injection H as <-.
    now exists proto, l1, l0, z, z0, z1, z2, z3, z4, z5, z6.
  - intros (proto & l1 & l0 & b0 & b1 & b2 & b3 & b4 & b5 & b6 & b7
            & -> & ->).
    reflexivity.
Qed.

(** How [build] fails: fewer than four bytes is a [FormatException]; a type
    byte other than 1 is a [NameError], the classes of the other types
    being bound nowhere; the parameter type with nothing after the base
    header is the [ValueError] of the constructor. *)
Theorem build_failures (host : byteorder) (raw : bytes) :
  ((List.length raw < 4)%nat ->
     build host raw
     = Raise (FormatException "Unpacking failed (malformed TLV?)."))
  /\ ((4 <= List.length raw)%nat -> nth 1 raw 0 <> 1 ->
        build host raw = Raise (NameError "EIGRPFieldAuth"))
  /\ (List.length raw = 4%nat -> nth 1 raw 0 = 1 ->
        build host raw
        = Raise (ValueError
                   "Either raw or all other values are required, not both."))
  /\ ((4 < List.length raw)%nat -> List.length raw <> 12%nat ->
        nth 1 raw 0 = 1 ->
        build host raw
        = Raise (FormatException "Unpacking failed (malformed TLV?).")).
Proof.
  repeat split; cycle 3.
  { intros H Hn Hty.
    do 4 (destruct raw as [| ? raw]; [simpl in H; lia |]).
    simpl in Hty. subst.
    destruct raw as [| ? raw]; [simpl in H; lia |].
    do 7 (destruct raw as [| ? raw]; [reflexivity |]).
    destruct raw; [simpl in Hn; lia | reflexivity]. }
  - intros H.
    do 4 (destruct raw as [| ? raw]; [reflexivity |]).
    simpl in H. lia.
  - intros H Hty.
    do 4 (destruct raw as [| ? raw]; [simpl in H; lia |]).
    simpl in Hty. unfold build. cbn [firstn]. unfold TYPE.
    apply Z.eqb_neq in Hty. now rewrite Hty.
  - intros H Hty.
    do 4 (destruct raw as [| ? raw]; [discriminate H |]).
    destruct raw; [| discriminate H].
    simpl in Hty. subst. reflexivity.
Qed.

Lemma roundtrip_big_endian_witness :
  is_byte 1 /\ is_byte 74 /\ is_byte 1 /\ is_byte 0 /\ is_byte 0
  /\ is_byte 0 /\ is_u16 15
  /\ EIGRPFieldParam_of_values 1 74 1 0 0 0 15
     = Ret {| _proto := 0; _type := Some 1; _len := Some 12;
              _k1 := 1; _k2 := 74; _k3 := 1; _k4 := 0; _k5 := 0; _k6 := 0;
              _holdtime := 15 |}
  /\ exists f',
       pack_then_build big
         {| _proto := 0; _type := Some 1; _len := Some 12;
            _k1 := 1; _k2 := 74; _k3 := 1; _k4 := 0; _k5 := 0; _k6 := 0;
            _holdtime := 15 |} = Ret f'
       /\ (_k1 f', _k2 f', _k3 f', _k4 f', _k5 f', _k6 f')
          = (1, 74, 1, 0, 0, 0)
       /\ _holdtime f' = 15.
Proof.
  assert (B1 : is_byte 1) by (unfold is_byte; lia).
  assert (B74 : is_byte 74) by (unfold is_byte; lia).
  assert (B0 : is_byte 0) by (unfold is_byte; lia).
  assert (H15 : is_u16 15) by (unfold is_u16; lia).
  repeat (split; [assumption |]).
  split; [reflexivity |].
  apply (roundtrip_big_endian 1 74 1 0 0 0 15 _ B1 B74 B1 B0 B0 B0 H15).
  reflexivity.
Defined.

Lemma roundtrip_little_endian_witness :
  is_byte 1 /\ is_byte 74 /\ is_byte 1 /\ is_byte 0 /\ is_byte 0
  /\ is_byte 0 /\ is_u16 258
  /\ EIGRPFieldParam_of_values 1 74 1 0 0 0 258
     = Ret {| _proto := 0; _type := Some 1; _len := Some 12;
              _k1 := 1; _k2 := 74; _k3 := 1; _k4 := 0; _k5 := 0; _k6 := 0;
              _holdtime := 258 |}
  /\ exists f',
       pack_then_build little
         {| _proto := 0; _type := Some 1; _len := Some 12;
            _k1 := 1; _k2 := 74; _k3 := 1; _k4 := 0; _k5 := 0; _k6 := 0;
            _holdtime := 258 |} = Ret f'
       /\ (_k1 f', _k2 f', _k3 f', _k4 f', _k5 f', _k6 f')
          = (1, 74, 1, 0, 0, 0)
       /\ _holdtime f'
          = Z.lor (Z.shiftr 258 8) (Z.shiftl (Z.land 258 255) 8).
Proof.
  assert (B1 : is_byte 1) by (unfold is_byte; lia).
  assert (B74 : is_byte 74) by (unfold is_byte; lia).
  assert (B0 : is_byte 0) by (unfold is_byte; lia).
  assert (H258 : is_u16 258) by (unfold is_u16; lia).
  repeat (split; [assumption |]).
  split; [reflexivity |].
  apply (roundtrip_little_endian 1 74 1 0 0 0 258 _ B1 B74 B1 B0 B0 B0 H258).
  reflexivity.
Defined.

(** ** Received datagrams *)

(** How [datagramReceived] ends: a sender address that ipaddr refuses
    makes it raise ipaddr's exception; a datagram from one of the host's own
    addresses is ignored; from anyone else, an empty datagram raises the
    [ValueError] of the header constructor, one of up to 19 bytes is
    dropped as malformed, and one of twenty bytes or more raises
    [AttributeError] on [hdr.hdrver], an attribute the header never has.
    No datagram reaches an opcode handler. *)
Theorem datagramReceived_outcomes (IPv4Address : string -> outcome string)
    (ifaces : list logical_iface) (data : bytes) (addr_and_zero : string) :
  datagramReceived IPv4Address ifaces data addr_and_zero =
    match IPv4Address addr_and_zero with
    | Raise e => Raise e
    | Ret addr =>
        if existsb (fun i => String.eqb (ip i) addr) ifaces
        then Ret IgnoredLocal
        else match data with
             | [] =>
                 Raise (ValueError
                   "Either 'raw' is required, or all other arguments are required.")
             | _ =>
                 if (List.length data <? 20)%nat then Ret DroppedMalformed
                 else Raise (AttributeError "hdrver")
             end
    end.
Proof.
  unfold datagramReceived.
  destruct (IPv4Address addr_and_zero) as [addr | e]; [| reflexivity].
  cbn [and_then].
  destruct (existsb (fun i => String.eqb (ip i) addr) ifaces);
    [reflexivity |].
  do 20 (destruct data as [| ? data]; [reflexivity |]).
  reflexivity.
Qed.

(** ** Activating interfaces and sending hellos *)

Lemma activate_iface_shape (req : string) (ifaces : list logical_iface) :
  match activate_iface req ifaces with
  | Ret l' =>
      exists pre i post,
        ifaces = pre ++ i :: post
        /\ ip i = req
        /\ ~ In req (map ip pre)
        /\ l' = pre ++ {| ip := req; activated := true |} :: post
  | Raise e => e = NameError "iface" /\ ~ In req (map ip ifaces)
  end.
Proof.
  induction ifaces as [| j l IH]; simpl.
  - split; [reflexivity | tauto].
  - destruct (String.eqb req (ip j)) eqn:E.
    + apply String.eqb_eq in E. exists [], j, l.
      repeat split; [now symmetry | tauto | now rewrite E].
    + apply String.eqb_neq in E.
      destruct (activate_iface req l) as [l' | e]; simpl.
      * destruct IH as (pre & i & post & -> & Hi & Hpre & ->).
        exists (j :: pre), i, post. repeat split; [exact Hi |].
        simpl. intros [H | H]; [now apply E | now apply Hpre].
      * destruct IH as [-> Hn]. split; [reflexivity |].
        intros [H | H]; [now apply E | now apply Hn].
Qed.

(** [activate_iface] succeeds exactly when an interface has the requested
    address; it then activates the first such interface and leaves every
    other interface, and the order, as they were. With no such interface
    it raises [NameError] on [iface] (the [ValueError] it means to raise is
    never built) and changes nothing. *)
Theorem activate_iface_spec (req : string) (ifaces : list logical_iface) :
  (In req (map ip ifaces) <->
     exists pre i post,
       ifaces = pre ++ i :: post
       /\ ip i = req
       /\ ~ In req (map ip pre)
       /\ activate_iface req ifaces
          = Ret (pre ++ {| ip := req; activated := true |} :: post))
  /\ (~ In req (map ip ifaces) <->
        activate_iface req ifaces = Raise (NameError "iface")).
Proof.
  pose proof (activate_iface_shape req ifaces) as S.
  destruct (activate_iface req ifaces) as [l' | e].
  - destruct S as (pre & i & post & -> & Hi & Hpre & ->).
    assert (Hin : In req (map ip (pre ++ i :: post))).
    { rewrite map_app. apply in_or_app. right. left. exact Hi. }
    split; split.
    + intros _. now exists pre, i, post.
    + intros _. exact Hin.
    + intros Hn. now exfalso.
    + discriminate.
  - destruct S as [-> Hn]. split; split.
    + intros Hin. now exfalso.
    + intros (pre & i & post & _ & _ & _ & H). discriminate H.
    + reflexivity.
    + intros _. exact Hn.
Qed.

Lemma activate_iface_active (req : string) (l l' : list logical_iface) :
  activate_iface req l = Ret l' ->
  map ip l' = map ip l
  /\ (exists i, In i l' /\ ip i = req /\ activated i = true)
  /\ (forall q, (exists i, In i l /\ ip i = q /\ activated i = true) ->
                exists i, In i l' /\ ip i = q /\ activated i = true).
Proof.
  intros H. pose proof (activate_iface_shape req l) as S. rewrite H in S.
  destruct S as (pre & i & post & -> & Hi & _ & ->).
  split; [rewrite !map_app; simpl; now rewrite Hi |].
  split.
  - eexists. split; [apply in_elt |]. now split.
  - intros q (j & Hj & Hq & Ha).
    apply in_app_or in Hj as [Hj | [Hj | Hj]].
    + exists j. split; [apply in_or_app; now left | now split].
    + subst j. eexists. split; [apply in_elt |]. simpl.
      split; [congruence | reflexivity].
    + exists j. split; [apply in_or_app; right; now right | now split].
Qed.

(** After the loop of [EIGRP.__init__] over the requested addresses has
    gone through, every requested address is an address of the host, and a
    round of [_send_periodic_hello] writes the hello packet to 224.0.0.10
    on each requested address; no address of the host was added or
    dropped. *)
Theorem requested_ifaces_get_hellos (requested : list string)
    (ifaces l' : list logical_iface) (hello_pkt : bytes) :
  activate_requested requested ifaces = Ret l' ->
  map ip l' = map ip ifaces
  /\ forall req, In req requested ->
       In req (map ip ifaces)
       /\ In {| out_iface := req; payload := hello_pkt; to := DST_IP |}
            (send_periodic_hello hello_pkt l').
Proof.
  assert (G : forall requested ifaces l',
            activate_requested requested ifaces = Ret l' ->
            map ip l' = map ip ifaces
            /\ (forall q, (exists i, In i ifaces /\ ip i = q
                                     /\ activated i = true) ->
                          exists i, In i l' /\ ip i = q
                                    /\ activated i = true)
            /\ forall req, In req requested ->
                 In req (map ip ifaces)
                 /\ exists i, In i l' /\ ip i = req /\ activated i = true).
  { clear. induction requested as [| r rest IH]; intros ifaces l' H.
    - injection H as <-. repeat split; auto; contradiction.
    - simpl in H.
      destruct (activate_iface r ifaces) as [l1 |] eqn:E1; [| discriminate].
      simpl in H.
      destruct (activate_iface_active r ifaces l1 E1) as (Hm1 & Hact1 & Hk1).
      destruct (IH l1 l' H) as (Hm & Hk & Hall).
      split; [congruence |]. split; [intros q Hq; apply Hk, Hk1, Hq |].
      intros req [<- | Hin].
      + split; [| apply Hk, Hact1].
        destruct Hact1 as (i & Hi & <- & _). rewrite <- Hm1.
        now apply in_map.
      + destruct (Hall req Hin) as [Hi Ha]. split; [| exact Ha].
        now rewrite <- Hm1. }
  intros H. destruct (G requested ifaces l' H) as (Hm & _ & Hall).
  split; [exact Hm |]. intros req Hin.
  destruct (Hall req Hin) as [Hi (i & Hil & Hip & Ha)].
  split; [exact Hi |].
  unfold send_periodic_hello. apply in_map_iff. exists i.
  split; [now rewrite Hip |]. apply filter_In. now split.
Qed.

Lemma requested_ifaces_get_hellos_witness :
  activate_requested ["198.51.100.1"] two_ifaces
    = Ret [ {| ip := "192.0.2.1"; activated := false |};
            {| ip := "198.51.100.1"; activated := true |} ]
  /\ (map ip [ {| ip := "192.0.2.1"; activated := false |};
               {| ip := "198.51.100.1"; activated := true |} ]
      = map ip two_ifaces
      /\ forall req, In req ["198.51.100.1"] ->
           In req (map ip two_ifaces)
           /\ In {| out_iface := req; payload := [2; 5]; to := DST_IP |}
                (send_periodic_hello [2; 5]
                   [ {| ip := "192.0.2.1"; activated := false |};
                     {| ip := "198.51.100.1"; activated := true |} ])).
Proof.
  split; [reflexivity |].
  apply (requested_ifaces_get_hellos ["198.51.100.1"] two_ifaces
           [ {| ip := "192.0.2.1"; activated := false |};
             {| ip := "198.51.100.1"; activated := true |} ] [2; 5]).
  reflexivity.
Defined.

(** ** Packing a parameter field *)

(** A field parsed by [build] cannot be packed again: the branch of
    [__init__] that reads [raw] sets neither [_type] nor [_len], and [pack]
    raises [AttributeError] on the first of them. *)
Theorem parsed_field_cannot_pack (host : byteorder) (raw : bytes)
    (f : EIGRPFieldParam) :
  build host raw = Ret f -> pack f = Raise (AttributeError "_type").
Proof.
  unfold build.
  destruct raw as [| proto [| ty [| l1 [| l0 rest]]]]; try discriminate.
  cbn [firstn skipn].
  destruct (ty =? TYPE); [| discriminate].
  do 9 (destruct rest as [| ? rest]; try discriminate).
  cbn [EIGRPFieldParam_of_raw unpack and_then].
  intros H. injection H as <-. reflexivity.
Qed.

Lemma parsed_field_cannot_pack_witness :
  build little [0; 1; 0; 12; 1; 74; 1; 0; 0; 0; 0; 15]
    = Ret {| _proto := 0; _type := None; _len := None;
             _k1 := 1; _k2 := 74; _k3 := 1; _k4 := 0; _k5 := 0; _k6 := 0;
             _holdtime := 3840 |}
  /\ pack {| _proto := 0; _type := None; _len := None;
             _k1 := 1; _k2 := 74; _k3 := 1; _k4 := 0; _k5 := 0; _k6 := 0;
             _holdtime := 3840 |} = Raise (AttributeError "_type").
Proof.
  split; [reflexivity |].
  apply (parsed_field_cannot_pack little
           [0; 1; 0; 12; 1; 74; 1; 0; 0; 0; 0; 15]).
  reflexivity.
Defined.

Lemma pack_B_cases (v : Z) :
  pack_B v = if (0 <=? v) && (v <=? 255) then Ret [v] else Raise StructError.
Proof. reflexivity. Qed.

(** Packing a field built from values: when the six K-values are between
    0 and 255 and the holdtime is at most 65535 the result is the twelve
    bytes of the TLV, header 0, 1, 0, 12 first and holdtime last, high byte
    first; when any of them is out of range it is [struct.error]. *)
Theorem pack_of_values (a1 a2 a3 a4 a5 a6 h : Z) (f : EIGRPFieldParam) :
  EIGRPFieldParam_of_values a1 a2 a3 a4 a5 a6 h = Ret f ->
  pack f =
    if forallb (fun v => (0 <=? v) && (v <=? 255)) [a1; a2; a3; a4; a5; a6]
       && ((0 <=? h) && (h <=? 65535))
    then Ret [0; 1; 0; 12; a1; a2; a3; a4; a5; a6;
              Z.shiftr h 8; Z.land h 255]
    else Raise StructError.
Proof.
  unfold EIGRPFieldParam_of_values.
  destruct (negb (h =? 0)); [| discriminate].
  intros H. injection H as <-.
  unfold pack; cbn [_type _len _proto _k1 _k2 _k3 _k4 _k5 _k6 _holdtime].
  cbn [pack_Bs forallb]. rewrite !pack_B_cases. unfold pack_H_be.
  destruct ((0 <=? a1) && (a1 <=? 255)); [| reflexivity].
  destruct ((0 <=? a2) && (a2 <=? 255)); [| reflexivity].
  destruct ((0 <=? a3) && (a3 <=? 255)); [| reflexivity].
  destruct ((0 <=? a4) && (a4 <=? 255)); [| reflexivity].
  destruct ((0 <=? a5) && (a5 <=? 255)); [| reflexivity].
  destruct ((0 <=? a6) && (a6 <=? 255)); [| reflexivity].
  destruct ((0 <=? h) && (h <=? 65535)); reflexivity.
Qed.

Lemma pack_of_values_witness :
  EIGRPFieldParam_of_values 1 74 1 0 0 256 15
    = Ret {| _proto := 0; _type := Some 1; _len := Some 12;
             _k1 := 1; _k2 := 74; _k3 := 1; _k4 := 0; _k5 := 0; _k6 := 256;
             _holdtime := 15 |}
  /\ pack {| _proto := 0; _type := Some 1; _len := Some 12;
             _k1 := 1; _k2 := 74; _k3 := 1; _k4 := 0; _k5 := 0; _k6 := 256;
             _holdtime := 15 |} =
       if forallb (fun v => (0 <=? v) && (v <=? 255)) [1; 74; 1; 0; 0; 256]
          && ((0 <=? 15) && (15 <=? 65535))
       then Ret [0; 1; 0; 12; 1; 74; 1; 0; 0; 256;
                 Z.shiftr 15 8; Z.land 15 255]
       else Raise StructError.
Proof.
  split; [reflexivity |].
  apply (pack_of_values 1 74 1 0 0 256 15).
  reflexivity.
Defined.
